(** * Luxury Store API: a shallow embedding of [main.py] and [schemas.py]

    The handlers of [main.py] are embedded as computations over an explicit
    document store.  The store plays the part of the MongoDB database behind
    the module-level handle [db]; the development covers the case where that
    handle is connected.  Text is modelled by [string], the UTF-8 bytes of
    the Python text; Python integers by [Z], which the store holds in at
    most 8 bytes; store identifiers ([bson.ObjectId]) by [N]; and the price,
    a Python float that no handler computes with, by a primitive float. *)

From Stdlib Require Import List String Ascii ZArith NArith Bool Lia PrimFloat.
Import ListNotations.
Local Open Scope string_scope.
Local Open Scope list_scope.

(** ** Schemas ([schemas.py]) *)

Module Category.
Record t := mk { name : string; slug : string; gender : string }.
End Category.

Module ProductImage.
Record t := mk { url : string; alt : option string }.
End ProductImage.

Module Variant.
Record t := mk { sku : string; size : option string; color : option string; stock : Z }.
End Variant.

Module Product.
Record t := mk {
  title : string;
  description : option string;
  price : float;
  currency : string;
  gender : string;
  type : string;
  category : string;
  tags : list string;
  images : list ProductImage.t;
  variants : list Variant.t;
  featured : bool
}.
End Product.

Module CartItem.
Record t := mk { product_id : string; sku : string; quantity : Z }.

(** [it["quantity"] += n] on the dict of one line item. *)
Definition add_quantity (it : t) (n : Z) : t :=
  mk (product_id it) (sku it) (quantity it + n).
End CartItem.

Module Cart.
(** The pydantic model [Cart]: [items] defaults to the empty list. *)
Record t := mk { session_id : string; items : list CartItem.t }.
End Cart.

Module CartDoc.
(** A document of the [cart] collection, as a dict: the key [session_id]
    and, when present, the key [items]. *)
Record t := mk { session_id : string; items : option (list CartItem.t) }.

(** [cart.get("items", [])] *)
Definition get_items (c : t) : list CartItem.t :=
  match items c with Some l => l | None => [] end.

(** The effect of [{"$set": {"items": l}}] on one document. *)
Definition set_items (l : list CartItem.t) (c : t) : t :=
  mk (session_id c) (Some l).
End CartDoc.

(** [cart.dict()] *)
Definition Cart_dict (c : Cart.t) : CartDoc.t :=
  CartDoc.mk (Cart.session_id c) (Some (Cart.items c)).

(** [UpdateCartRequest] of [main.py]. *)
Record UpdateCartRequest := mkUpdateCartRequest {
  req_session_id : string;
  req_item : CartItem.t
}.

(** [SeedRequest] of [main.py]: [force] defaults to [False]. *)
Record SeedRequest := mkSeedRequest { force : bool }.

(** ** The document store *)

Definition ObjectId := N.

(** A stored document: the store-assigned [_id] next to the inserted dict. *)
Record Doc (T : Type) := mkDoc { _id : ObjectId; body : T }.
Arguments mkDoc {T} _ _.
Arguments _id {T} _.
Arguments body {T} _.

Inductive Collection := category | product | cart.

Definition body_of (c : Collection) : Type :=
  match c with
  | category => Category.t
  | product => Product.t
  | cart => CartDoc.t
  end.

Record Store := mkStore {
  db_category : list (Doc Category.t);
  db_product : list (Doc Product.t);
  db_cart : list (Doc CartDoc.t)
}.

(** [db[c]], read. *)
Definition coll (c : Collection) (db : Store) : list (Doc (body_of c)) :=
  match c with
  | category => db_category db
  | product => db_product db
  | cart => db_cart db
  end.

(** [db[c]], replaced as a whole. *)
Definition set_coll (c : Collection) : list (Doc (body_of c)) -> Store -> Store :=
  match c with
  | category => fun l db => mkStore l (db_product db) (db_cart db)
  | product => fun l db => mkStore (db_category db) l (db_cart db)
  | cart => fun l db => mkStore (db_category db) (db_product db) l
  end.

Definition empty_store : Store := mkStore [] [] [].

(** The identifier given to the next inserted document: one that no
    document of the collection carries. *)
Definition fresh_id {T} (l : list (Doc T)) : ObjectId :=
  N.succ (fold_right N.max 0%N (map _id l)).

(** ** Handlers as store computations

    A handler runs against the store and ends with a value or with an
    exception; writes made before an exception stay (no transaction). *)

Inductive exn :=
| HTTPException (status_code : nat) (detail : string)
| Uncaught (what : string).

(** The status of the response to an exception: that of an
    [HTTPException], and 500 for an exception that no handler catches. *)
Definition status_of (e : exn) : nat :=
  match e with
  | HTTPException status_code _ => status_code
  | Uncaught _ => 500
  end.

Definition M (A : Type) : Type := Store -> (exn + A) * Store.

Definition ret {A} (a : A) : M A := fun db => (inr a, db).

Definition raise {A} (e : exn) : M A := fun db => (inl e, db).

Definition bind {A B} (m : M A) (k : A -> M B) : M B :=
  fun db =>
    match m db with
    | (inl e, db') => (inl e, db')
    | (inr a, db') => k a db'
    end.

Declare Scope store_scope.
Delimit Scope store_scope with store.
Notation "x <- m ;; k" := (bind m (fun x => k))
  (at level 61, m at next level, right associativity) : store_scope.
Notation "m ;; k" := (bind m (fun _ => k))
  (at level 61, right associativity) : store_scope.
Local Open Scope store_scope.

(** The final store and the outcome of a run. *)
Definition exec {A} (m : M A) (db : Store) : Store := snd (m db).
Definition outcome {A} (m : M A) (db : Store) : exn + A := fst (m db).

(** *** Driver operations (pymongo) *)

(** Filters [{"session_id": s}] and [{"_id": i}]. *)
Definition by_session_id (s : string) (d : Doc CartDoc.t) : bool :=
  (CartDoc.session_id (body d) =? s)%string.

Definition by_id {T} (i : ObjectId) (d : Doc T) : bool :=
  (_id d =? i)%N.

(** [db[c].find_one(filter)]: the first matching document, or [None]. *)
Definition find_one (c : Collection) (f : Doc (body_of c) -> bool)
  : M (option (Doc (body_of c))) :=
  fun db => (inr (find f (coll c db)), db).

(** [update_one] rewrites the first matching document only. *)
Fixpoint update_first {T} (f : Doc T -> bool) (g : T -> T) (l : list (Doc T))
  : list (Doc T) :=
  match l with
  | [] => []
  | d :: rest =>
      if f d then mkDoc (_id d) (g (body d)) :: rest
      else d :: update_first f g rest
  end.

(** The store holds an integer in at most 8 bytes. *)
Definition int64_ok (z : Z) : bool :=
  ((- 2 ^ 63 <=? z) && (z <? 2 ^ 63))%Z.

(** The integers of a document. *)
Definition ints_of (c : Collection) : body_of c -> list Z :=
  match c with
  | category => fun _ => []
  | product => fun b => map Variant.stock (Product.variants b)
  | cart => fun b => map CartItem.quantity (CartDoc.get_items b)
  end.

(** The integers that a collection holds. *)
Definition stored_ints (c : Collection) (db : Store) : list Z :=
  flat_map (fun d => ints_of c (body d)) (coll c db).

(** An update document [{"$set": ...}]: what it does to the dict of the
    document it is applied to, and the integers that it carries. *)
Record update_doc (T : Type) := mkUpdate {
  upd_apply : T -> T;
  upd_ints : list Z
}.
Arguments mkUpdate {T} _ _.
Arguments upd_apply {T} _ _.
Arguments upd_ints {T} _.

(** [{"$set": {"items": items}}] *)
Definition set_items_doc (items : list CartItem.t) : update_doc CartDoc.t :=
  mkUpdate (CartDoc.set_items items) (map CartItem.quantity items).

(** The driver encodes an update before it sends anything, and raises
    [OverflowError] on an integer that does not fit 8 bytes.  The integers
    that the collection holds were encoded when they were stored, so they
    fit: the test bears on the integers that the update brings.  On a store
    whose integers fit, as in every store that exists, this is the test of
    every integer of the update (lemma [fits_plain]). *)
Definition encodable (c : Collection) (u : update_doc (body_of c)) (db : Store)
  : bool :=
  forallb (fun z => int64_ok z || existsb (Z.eqb z) (stored_ints c db))
    (upd_ints u).

(** [db[c].update_one(filter, {"$set": ...})]: nothing is written when the
    update cannot be encoded. *)
Definition update_one (c : Collection) (f : Doc (body_of c) -> bool)
  (u : update_doc (body_of c)) : M unit :=
  fun db =>
    if encodable c u db
    then (inr tt, set_coll c (update_first f (upd_apply u) (coll c db)) db)
    else (inl (Uncaught "OverflowError"), db).

(** [db[c].delete_many({})] *)
Definition delete_many_all (c : Collection) : M unit :=
  fun db => (inr tt, set_coll c [] db).

(** [db[c].estimated_document_count()] *)
Definition estimated_document_count (c : Collection) : M nat :=
  fun db => (inr (List.length (coll c db)), db).

(** *** The adapter of [database.py] *)

(** Modelled from the spec: [create_document] of [database.py], which is not
    among the sources; the spec gives the adapter [insert(collection, doc)
    -> id].  The document is added after the existing ones under a fresh
    identifier, which is returned. *)
Definition create_document (c : Collection) (data : body_of c) : M ObjectId :=
  fun db =>
    let i := fresh_id (coll c db) in
    (inr i, set_coll c (coll c db ++ [mkDoc i data]) db).

(** ** Cart handlers *)

(** [create_or_get_cart], POST /api/cart *)
Definition create_or_get_cart (c : Cart.t) : M (option (Doc CartDoc.t)) :=
  existing <- find_one cart (by_session_id (Cart.session_id c)) ;;
  match existing with
  | Some _ => ret existing
  | None =>
      create_document cart (Cart_dict c) ;;
      find_one cart (by_session_id (Cart.session_id c))
  end.

(** The scan of [cart_add]: the first line whose sku equals the item's gets
    its quantity raised and the scan stops; the flag is [found]. *)
Fixpoint add_scan (items : list CartItem.t) (item : CartItem.t)
  : list CartItem.t * bool :=
  match items with
  | [] => ([], false)
  | it :: rest =>
      if (CartItem.sku it =? CartItem.sku item)%string
      then (CartItem.add_quantity it (CartItem.quantity item) :: rest, true)
      else let (rest', found) := add_scan rest item in (it :: rest', found)
  end.

(** The list that [cart_add] writes back. *)
Definition add_to_items (items : list CartItem.t) (item : CartItem.t)
  : list CartItem.t :=
  let (items', found) := add_scan items item in
  if found then items' else items' ++ [item].

(** [cart_add], POST /api/cart/add *)
Definition cart_add (req : UpdateCartRequest) : M (option (Doc CartDoc.t)) :=
  cart0 <- find_one cart (by_session_id (req_session_id req)) ;;
  cart1 <- match cart0 with
           | Some _ => ret cart0
           | None =>
               create_document cart (CartDoc.mk (req_session_id req) (Some [])) ;;
               find_one cart (by_session_id (req_session_id req))
           end ;;
  match cart1 with
  | None => raise (Uncaught "AttributeError")
  | Some c =>
      let items := add_to_items (CartDoc.get_items (body c)) (req_item req) in
      update_one cart (by_id (_id c)) (set_items_doc items) ;;
      find_one cart (by_id (_id c))
  end.

(** [cart_remove], POST /api/cart/remove *)
Definition cart_remove (req : UpdateCartRequest) : M (option (Doc CartDoc.t)) :=
  cart0 <- find_one cart (by_session_id (req_session_id req)) ;;
  match cart0 with
  | None => raise (HTTPException 404 "Cart not found")
  | Some c =>
      let items :=
        filter (fun it => negb (CartItem.sku it =? CartItem.sku (req_item req))%string)
               (CartDoc.get_items (body c)) in
      update_one cart (by_id (_id c)) (set_items_doc items) ;;
      find_one cart (by_id (_id c))
  end.

(** ** Seed data *)

(** The list [categories] of [seed]. *)
Definition categories : list Category.t :=
  [ Category.mk "Women" "women" "women";
    Category.mk "Men" "men" "men";
    Category.mk "Kids" "kids" "kids" ].

(** The list [sample_products] of [seed]. *)
Definition sample_products : list Product.t :=
  [ Product.mk "Silk Emerald Top"
      (Some "Silk satin blouse with subtle sheen.")
      890%float "USD" "women" "tops" "women"
      ["seasonal"; "emerald"]
      [ProductImage.mk "https://images.unsplash.com/photo-1521572163474-6864f9cf17ab"
         (Some "Silk Top")]
      [Variant.mk "W-TOP-EMR-S" (Some "S") None 5;
       Variant.mk "W-TOP-EMR-M" (Some "M") None 7;
       Variant.mk "W-TOP-EMR-L" (Some "L") None 4]
      true;
    Product.mk "Tailored Wool Trousers"
      (Some "Slim fit wool trousers with pressed creases.")
      760%float "USD" "men" "bottoms" "men"
      ["classic"]
      [ProductImage.mk "https://images.unsplash.com/photo-1520975693416-35a1d9d8f5f4"
         (Some "Wool Trousers")]
      [Variant.mk "M-BOT-WOOL-30" (Some "30") None 6;
       Variant.mk "M-BOT-WOOL-32" (Some "32") None 8]
      true;
    Product.mk "Kid's Party Dress"
      (Some "Tulle skirt with satin bodice in amber accents.")
      520%float "USD" "kids" "dress" "kids"
      ["seasonal"; "gold"]
      [ProductImage.mk "https://images.unsplash.com/photo-1520975236143-0f2a8f3f6b9a"
         (Some "Kids Dress")]
      [Variant.mk "K-DRS-PT-4" (Some "4") None 10;
       Variant.mk "K-DRS-PT-6" (Some "6") None 7]
      true;
    Product.mk "Calf Leather Oxfords"
      (Some "Hand-polished leather shoes with amber lining.")
      980%float "USD" "men" "shoes" "men"
      ["new"]
      [ProductImage.mk "https://images.unsplash.com/photo-1515542706656-8e6ef17a1521"
         (Some "Leather Oxfords")]
      [Variant.mk "M-SHO-OXF-42" (Some "42") None 3;
       Variant.mk "M-SHO-OXF-43" (Some "43") None 2]
      false ].

(** A response dict of [seed]. *)
Inductive JSON := JStr (s : string) | JNum (n : nat).

(** [for x in l: create_document(c, x)] *)
Fixpoint create_each (c : Collection) (l : list (body_of c)) : M unit :=
  match l with
  | [] => ret tt
  | x :: rest => create_document c x ;; create_each c rest
  end.

(** The guard of [seed]: [force] is false and both collections hold a
    document ([and] looks at [product] only when [category] is not empty). *)
Definition seed_guard (req : SeedRequest) : M bool :=
  if negb (force req) then
    nc <- estimated_document_count category ;;
    if (0 <? nc)%nat then
      np <- estimated_document_count product ;;
      ret (0 <? np)%nat
    else ret false
  else ret false.

(** [seed], POST /api/seed *)
Definition seed (req : SeedRequest) : M (list (string * JSON)) :=
  skip <- seed_guard req ;;
  if skip then ret [("status", JStr "ok"); ("message", JStr "Already seeded")]
  else
    delete_many_all category ;;
    delete_many_all product ;;
    create_each category categories ;;
    create_each product sample_products ;;
    ret [("status", JStr "ok"); ("seeded", JNum (List.length sample_products))].

(** ** Catalog handlers *)

(** A filter dict as the handlers build it: a key is bound to a value to
    compare with, or to a [$regex] with its [$options]. *)
Inductive value := VStr (s : string) | VBool (b : bool).

Inductive cond :=
| Equals (v : value)
| Regex (pattern options : string).

Definition filter_dict := list (string * cond).

(** [filt[k] = c] *)
Fixpoint dict_set (k : string) (c : cond) (filt : filter_dict) : filter_dict :=
  match filt with
  | [] => [(k, c)]
  | (k', c') :: rest =>
      if (k' =? k)%string then (k, c) :: rest else (k', c') :: dict_set k c rest
  end.

Definition value_eqb (a b : value) : bool :=
  match a, b with
  | VStr s, VStr s' => (s =? s')%string
  | VBool x, VBool y => Bool.eqb x y
  | _, _ => false
  end.

(** The fields of a document that the handlers' filters name. *)
Definition field (c : Collection) : body_of c -> string -> option value :=
  match c with
  | category => fun b k =>
      if (k =? "name")%string then Some (VStr (Category.name b))
      else if (k =? "slug")%string then Some (VStr (Category.slug b))
      else if (k =? "gender")%string then Some (VStr (Category.gender b))
      else None
  | product => fun b k =>
      if (k =? "title")%string then Some (VStr (Product.title b))
      else if (k =? "gender")%string then Some (VStr (Product.gender b))
      else if (k =? "type")%string then Some (VStr (Product.type b))
      else if (k =? "category")%string then Some (VStr (Product.category b))
      else if (k =? "featured")%string then Some (VBool (Product.featured b))
      else None
  | cart => fun b k =>
      if (k =? "session_id")%string then Some (VStr (CartDoc.session_id b))
      else None
  end.

(** Python truthiness of an [Optional[str]] parameter: [None] and the empty
    string are false. *)
Definition truthy (o : option string) : bool :=
  match o with
  | Some s => negb (s =? "")%string
  | None => false
  end.

(** [x if x else ""], for a parameter known to be truthy. *)
Definition str_of (o : option string) : string :=
  match o with Some s => s | None => "" end.

(** *** Text matching *)

(** Text of ASCII characters only: the text on which a letter and its other
    case are one byte each, [A]-[Z] and [a]-[z]. *)
Definition ascii_text (s : string) : bool :=
  forallb (fun c => (N_of_ascii c <? 128)%N) (list_ascii_of_string s).

(** The lower case of an ASCII letter; every other byte is kept. *)
Definition lower (c : ascii) : ascii :=
  let n := nat_of_ascii c in
  if ((65 <=? n) && (n <=? 90))%nat then ascii_of_nat (n + 32) else c.

Definition char_eq_ci (a b : ascii) : bool := (lower a =? lower b)%char.

(** [p] read at the start of [s], characters compared by [cm]. *)
Fixpoint prefix_by (cm : ascii -> ascii -> bool) (p s : string) : bool :=
  match p, s with
  | EmptyString, _ => true
  | String _ _, EmptyString => false
  | String a p', String b s' => cm a b && prefix_by cm p' s'
  end.

(** [p] read somewhere in [s]. *)
Fixpoint search_by (cm : ascii -> ascii -> bool) (p s : string) : bool :=
  prefix_by cm p s ||
  match s with
  | EmptyString => false
  | String _ s' => search_by cm p s'
  end.

(** The spec's words, for ASCII text: [t] contains [q] as a
    case-insensitive substring. *)
Definition contains_ci (q t : string) : bool := search_by char_eq_ci q t.

(** The characters that a regular expression does not read as themselves,
    and the NUL character, which no pattern may hold. *)
Definition regex_special (c : ascii) : bool :=
  existsb (Ascii.eqb c)
    (list_ascii_of_string "\^$.|?*+()[]{}") || (c =? Ascii.zero)%char.

(** A query made of ordinary characters only. *)
Definition plain (q : string) : bool :=
  forallb (fun c => negb (regex_special c)) (list_ascii_of_string q).

Section Catalog.

(** [bson.ObjectId(id_str)]: the identifier read from the text, or [None]
    where the constructor raises. *)
Variable ObjectId_of_str : string -> option ObjectId.

(** The store's regular expressions: [regex_compile pattern options] is the
    test "the pattern matches somewhere in the subject", or [None] where
    the store rejects the pattern. *)
Variable regex_compile : string -> string -> option (string -> bool).

(** One binding of a filter dict, as a test on the field's value (absent
    fields match neither). *)
Definition compile_cond (c : cond) : option (option value -> bool) :=
  match c with
  | Equals v =>
      Some (fun f => match f with Some w => value_eqb w v | None => false end)
  | Regex p o =>
      match regex_compile p o with
      | Some m => Some (fun f => match f with Some (VStr s) => m s | _ => false end)
      | None => None
      end
  end.

(** A filter dict as a test on documents: every binding must hold. *)
Fixpoint compile_filter (c : Collection) (filt : filter_dict)
  : option (Doc (body_of c) -> bool) :=
  match filt with
  | [] => Some (fun _ => true)
  | (k, cd) :: rest =>
      match compile_cond cd, compile_filter c rest with
      | Some f, Some g => Some (fun d => f (field c (body d) k) && g d)
      | _, _ => None
      end
  end.

(** [db[c].find(filt)], read to the end: the matching documents in store
    order; a rejected pattern raises. *)
Definition coll_find (c : Collection) (filt : filter_dict)
  : M (list (Doc (body_of c))) :=
  match compile_filter c filt with
  | Some f => fun db => (inr (filter f (coll c db)), db)
  | None => raise (Uncaught "OperationFailure")
  end.

(** Modelled from the spec: [get_documents] of [database.py], which is not
    among the sources; the spec gives the adapter [query(collection,
    filter) -> sequence of docs]. *)
Definition get_documents (c : Collection) (filt : filter_dict)
  : M (list (Doc (body_of c))) :=
  coll_find c filt.

(** [oid] *)
Definition oid (id_str : string) : M ObjectId :=
  match ObjectId_of_str id_str with
  | Some o => ret o
  | None => raise (HTTPException 400 "Invalid id")
  end.

(** [list_categories], GET /api/categories *)
Definition list_categories : M (list (Doc Category.t)) :=
  get_documents category [].

(** [list_products], GET /api/products *)
Definition list_products (gender ptype category_ : option string)
  (featured : option bool) (q : option string) : M (list (Doc Product.t)) :=
  let filt := [] in
  let filt :=
    if truthy gender then dict_set "gender" (Equals (VStr (str_of gender))) filt
    else filt in
  let filt :=
    if truthy ptype then dict_set "type" (Equals (VStr (str_of ptype))) filt
    else filt in
  let filt :=
    if truthy category_
    then dict_set "category" (Equals (VStr (str_of category_))) filt
    else filt in
  let filt :=
    match featured with
    | Some b => dict_set "featured" (Equals (VBool b)) filt
    | None => filt
    end in
  let filt :=
    if truthy q then dict_set "title" (Regex (str_of q) "i") filt else filt in
  get_documents product filt.

(** [get_product], GET /api/products/{product_id} *)
Definition get_product (product_id : string) : M (Doc Product.t) :=
  o <- oid product_id ;;
  doc <- find_one product (by_id o) ;;
  match doc with
  | None => raise (HTTPException 404 "Product not found")
  | Some d => ret d
  end.

(** [search_products], GET /api/search *)
Definition search_products (q : string) : M (list (Doc Product.t)) :=
  if (q =? "")%string then ret []
  else
    docs <- coll_find product [("title", Regex q "i")] ;;
    ret (firstn 10 docs).

End Catalog.

(** *** Instances of the driver, for running the handlers *)

Definition hex_digit (c : ascii) : option N :=
  let n := N_of_ascii c in
  if ((48 <=? n) && (n <=? 57))%N then Some (n - 48)%N
  else if ((97 <=? n) && (n <=? 102))%N then Some (n - 87)%N
  else if ((65 <=? n) && (n <=? 70))%N then Some (n - 55)%N
  else None.

Fixpoint hex_value (s : string) (acc : N) : option N :=
  match s with
  | EmptyString => Some acc
  | String c s' =>
      match hex_digit c with
      | Some d => hex_value s' (16 * acc + d)%N
      | None => None
      end
  end.

(** A reader of identifiers written as 24 hexadecimal digits, which
    [bson.ObjectId] reads so too; it is for running the handlers and reads
    no other form. *)
Definition ObjectId_hex (s : string) : option ObjectId :=
  if (String.length s =? 24)%nat then hex_value s 0%N else None.

(** How one pattern character reads one subject character, for patterns
    made of ordinary characters and [.]: the dot reads any character but
    the line feed, an ordinary character reads itself in either case. *)
Definition dot_char (p c : ascii) : bool :=
  if (p =? ".")%char then negb (c =? "010")%char else char_eq_ci p c.

(** A regular-expression engine for the patterns made of ordinary
    characters and [.], under the option [i]; it has no matcher for any
    other pattern or option. *)
Definition regex_dot (pattern options : string) : option (string -> bool) :=
  if forallb (fun c => negb (regex_special c) || (c =? ".")%char)
       (list_ascii_of_string pattern)
     && (options =? "i")%string
  then Some (search_by dot_char pattern)
  else None.

(** ** The properties that the specification states *)

(** At most one cart document per [session_id] value. *)
Definition one_cart_per_session (db : Store) : Prop :=
  forall s, (List.length (filter (by_session_id s) (db_cart db)) <= 1)%nat.

(** The cart operations, run one after the other. *)
Inductive cart_op :=
| GetOrCreate (c : Cart.t)
| AddItem (req : UpdateCartRequest)
| RemoveItem (req : UpdateCartRequest).

Definition run_op (o : cart_op) (db : Store) : Store :=
  match o with
  | GetOrCreate c => exec (create_or_get_cart c) db
  | AddItem req => exec (cart_add req) db
  | RemoveItem req => exec (cart_remove req) db
  end.

Definition run_ops (ops : list cart_op) (db : Store) : Store :=
  fold_left (fun db o => run_op o db) ops db.

(** The spec's words: an optional equality constraint, which holds of
    everything when it is absent. *)
Definition holds_eq (supplied : option string) (actual : string) : bool :=
  match supplied with
  | Some s => (actual =? s)%string
  | None => true
  end.

(** The spec's words: the logical AND of the supplied constraints, equality
    for gender, type, category and featured, case-insensitive substring on
    the title for [q]. *)
Definition satisfies (gender ptype category_ : option string)
  (featured : option bool) (q : option string) (d : Doc Product.t) : bool :=
  holds_eq gender (Product.gender (body d))
  && holds_eq ptype (Product.type (body d))
  && holds_eq category_ (Product.category (body d))
  && match featured with
     | Some b => Bool.eqb (Product.featured (body d)) b
     | None => true
     end
  && match q with
     | Some s => contains_ci s (Product.title (body d))
     | None => true
     end.

(** A text parameter as [list_products] takes it: the empty string counts
    as not given. *)
Definition given (o : option string) : option string :=
  if truthy o then o else None.

(** The store matches the query [q], taken as a pattern under the option
    [i], on exactly the stored titles that contain it as a case-insensitive
    substring. *)
Definition reads_plain_on
  (regex_compile : string -> string -> option (string -> bool))
  (q : string) (db : Store) : Prop :=
  exists m,
    regex_compile q "i" = Some m /\
    forall d, In d (db_product db) ->
      m (Product.title (body d)) = contains_ci q (Product.title (body d)).

(** An engine that reads an ASCII pattern of ordinary characters as plain
    text, in either case, anywhere in an ASCII subject. *)
Definition reads_plain_ascii
  (regex_compile : string -> string -> option (string -> bool)) : Prop :=
  forall q, plain q = true -> ascii_text q = true ->
    exists m,
      regex_compile q "i" = Some m /\
      forall t, ascii_text t = true -> m t = contains_ci q t.

(** The stored titles are ASCII text. *)
Definition ascii_titles (db : Store) : Prop :=
  forall d, In d (db_product db) -> ascii_text (Product.title (body d)) = true.

(** The quantity of the line that [cart_add] writes: that of the first line
    of equal sku plus the added one, or the added one for a new line. *)
Definition written_quantity (prior : list CartItem.t) (item : CartItem.t) : Z :=
  match find (fun it => (CartItem.sku it =? CartItem.sku item)%string) prior with
  | Some it => (CartItem.quantity it + CartItem.quantity item)%Z
  | None => CartItem.quantity item
  end.

(** The driver can encode the update that sets the items of a cart. *)
Definition fits (db : Store) (items : list CartItem.t) : bool :=
  encodable cart (set_items_doc items) db.

(** Every stored quantity fits 8 bytes, as in every store that exists. *)
Definition quantities_fit (db : Store) : Prop :=
  forall z, In z (stored_ints cart db) -> int64_ok z = true.

(** ** The probe of the store *)

(** The handle [db] as [test_database] meets it: [None], or a database with
    its [name], whose [list_collection_names()] returns the names or raises
    an exception with the text [str(e)]. *)
Inductive db_handle :=
| db_None
| db_Database (name : string) (list_collection_names : string + list string).

(** The dict [resp] of [test_database]. *)
Record TestResponse := mkTestResponse {
  backend : string;
  database : string;
  database_url : string;
  database_name : string;
  collections : list string
}.

(** A byte that continues a character of UTF-8 text ([10xxxxxx]). *)
Definition utf8_continuation (c : ascii) : bool :=
  ((128 <=? N_of_ascii c) && (N_of_ascii c <? 192))%N.

(** [s[:n]]: the first [n] characters of UTF-8 text, each with all its
    bytes. *)
Fixpoint take_chars (n : nat) (s : string) : string :=
  match s with
  | EmptyString => EmptyString
  | String c s' =>
      if utf8_continuation c then String c (take_chars n s')
      else
        match n with
        | O => EmptyString
        | S n' => String c (take_chars n' s')
        end
  end.

(** [len(s)]: the number of characters of UTF-8 text. *)
Fixpoint utf8_length (s : string) : nat :=
  match s with
  | EmptyString => O
  | String c s' =>
      if utf8_continuation c then utf8_length s' else S (utf8_length s')
  end.

(** [test_database], GET /test.  The keys are assigned one after the other
    inside the [try], so those written before an exception keep their
    values; [str(e)[:80]] is the first 80 characters of the text. *)
Definition test_database (db : db_handle) : TestResponse :=
  let resp :=
    mkTestResponse "✅ Running" "❌ Not Available" "❌ Not Set" "❌ Not Set" [] in
  match db with
  | db_None => resp
  | db_Database name names =>
      let resp :=
        mkTestResponse (backend resp) "✅ Connected" "✅ Set" name (collections resp) in
      match names with
      | inr l =>
          mkTestResponse (backend resp) (database resp) (database_url resp)
            (database_name resp) l
      | inl e =>
          mkTestResponse (backend resp) ("⚠️ " ++ take_chars 80 e)
            (database_url resp) (database_name resp) (collections resp)
      end
  end.

(** ** Request validation ([schemas.py]) and cart invariants *)

(** [CartItem]: [quantity: int = Field(1, ge=1)]; [product_id] and [sku] are
    any strings. *)
Definition CartItem_valid (it : CartItem.t) : bool :=
  (1 <=? CartItem.quantity it)%Z.

(** [Cart]: every element of [items] is a valid [CartItem]. *)
Definition Cart_valid (c : Cart.t) : bool :=
  forallb CartItem_valid (Cart.items c).

(** The body of a cart operation as the API layer lets it through. *)
Definition op_valid (o : cart_op) : bool :=
  match o with
  | GetOrCreate c => Cart_valid c
  | AddItem req => CartItem_valid (req_item req)
  | RemoveItem req => CartItem_valid (req_item req)
  end.

(** The session that a cart operation names. *)
Definition op_session (o : cart_op) : string :=
  match o with
  | GetOrCreate c => Cart.session_id c
  | AddItem req => req_session_id req
  | RemoveItem req => req_session_id req
  end.

(** Every stored line has a quantity of at least 1. *)
Definition quantities_valid (db : Store) : Prop :=
  forall d it,
    In d (db_cart db) -> In it (CartDoc.get_items (body d)) ->
    CartItem_valid it = true.

(** No stored cart has two lines of the same sku. *)
Definition skus_distinct (db : Store) : Prop :=
  forall d, In d (db_cart db) ->
    NoDup (map CartItem.sku (CartDoc.get_items (body d))).

(** ** Facts about the driver operations *)

Section DocLists.
Context {T : Type}.
Implicit Types (l pre post : list (Doc T)) (f : Doc T -> bool) (c d : Doc T).

Lemma find_some_split f l c :
  find f l = Some c ->
  exists pre post,
    l = pre ++ c :: post /\ Forall (fun x => f x = false) pre /\ f c = true.
Proof.
  induction l as [|d l IH]; simpl; [discriminate|].
  destruct (f d) eqn:Hd; intros H.
  - injection H as <-. exists [], l. auto.
  - destruct (IH H) as (pre & post & -> & Hpre & Hc).
    exists (d :: pre), post. auto.
Qed.

Lemma find_split f pre c post :
  Forall (fun x => f x = false) pre -> f c = true ->
  find f (pre ++ c :: post) = Some c.
Proof.
  induction 1 as [|x pre Hx _ IH]; simpl; intros Hc.
  - now rewrite Hc.
  - rewrite Hx. auto.
Qed.

Lemma find_none_all f l :
  find f l = None <-> Forall (fun x => f x = false) l.
Proof.
  split.
  - intros H. apply Forall_forall. intros x Hx. exact (find_none f l H x Hx).
  - induction 1 as [|x l Hx _ IH]; simpl; [reflexivity|now rewrite Hx].
Qed.

Lemma find_snoc_none f l d :
  find f l = None -> find f (l ++ [d]) = if f d then Some d else None.
Proof.
  induction l as [|x l IH]; simpl; [reflexivity|].
  destruct (f x); [discriminate|auto].
Qed.

Lemma filter_none f l :
  Forall (fun x => f x = false) l -> filter f l = [].
Proof.
  induction 1 as [|x l Hx _ IH]; simpl; [reflexivity|now rewrite Hx].
Qed.

Lemma update_first_split f (g : T -> T) pre c post :
  Forall (fun x => f x = false) pre -> f c = true ->
  update_first f g (pre ++ c :: post) = pre ++ mkDoc (_id c) (g (body c)) :: post.
Proof.
  induction 1 as [|x pre Hx _ IH]; simpl; intros Hc.
  - now rewrite Hc.
  - rewrite Hx. f_equal. auto.
Qed.

Lemma update_first_ids f (g : T -> T) l :
  map _id (update_first f g l) = map _id l.
Proof.
  induction l as [|d l IH]; simpl; [reflexivity|].
  destruct (f d); simpl; [reflexivity|now f_equal].
Qed.

Lemma by_id_refl c : by_id (_id c) c = true.
Proof. apply N.eqb_refl. Qed.

(** Identifiers are unique in a collection (the store's index on [_id]):
    the documents before [c] do not carry its identifier. *)
Lemma unique_ids_before pre c post :
  NoDup (map _id (pre ++ c :: post)) ->
  Forall (fun x => by_id (_id c) x = false) pre.
Proof.
  rewrite map_app. simpl. intros H. apply NoDup_remove_2 in H.
  apply Forall_forall. intros x Hx. unfold by_id.
  apply N.eqb_neq. intros E. apply H, in_or_app. left.
  rewrite <- E. now apply in_map.
Qed.

Lemma fresh_id_above l d : In d l -> (_id d < fresh_id l)%N.
Proof.
  unfold fresh_id. induction l as [|x l IH]; simpl; [contradiction|].
  intros [->|H]; [|specialize (IH H)]; lia.
Qed.

Lemma fresh_id_snoc_unique l (b : T) :
  NoDup (map _id l) -> NoDup (map _id (l ++ [mkDoc (fresh_id l) b])).
Proof.
  intros H. rewrite map_app. simpl.
  apply NoDup_rev in H. rewrite <- (rev_involutive (_ ++ _)), rev_app_distr.
  apply NoDup_rev. simpl. constructor; [|exact H].
  rewrite <- in_rev. intros Hin. apply in_map_iff in Hin.
  destruct Hin as (d & E & Hd). apply fresh_id_above in Hd. lia.
Qed.

End DocLists.

(** ** Runs of the cart handlers *)

(** *** Updates that the driver can encode *)

Lemma fits_iff (db : Store) items :
  fits db items = true <->
  forall it, In it items ->
    int64_ok (CartItem.quantity it) = true \/
    In (CartItem.quantity it) (stored_ints cart db).
Proof.
  unfold fits, encodable. simpl. rewrite forallb_forall. split.
  - intros H it Hit. specialize (H _ (in_map CartItem.quantity _ _ Hit)).
    apply orb_true_iff in H. destruct H as [H|H]; [now left|right].
    apply existsb_exists in H. destruct H as (z & Hz & E).
    apply Z.eqb_eq in E. now subst.
  - intros H z Hz. apply in_map_iff in Hz. destruct Hz as (it & <- & Hit).
    apply orb_true_iff. destruct (H it Hit) as [Hok|Hin]; [now left|right].
    apply existsb_exists. exists (CartItem.quantity it).
    split; [exact Hin|apply Z.eqb_refl].
Qed.

Lemma fits_plain (db : Store) items :
  quantities_fit db ->
  fits db items = forallb (fun it => int64_ok (CartItem.quantity it)) items.
Proof.
  intros Hdb. apply eq_true_iff_eq. rewrite fits_iff, forallb_forall.
  split; intros H it Hit.
  - destruct (H it Hit) as [Hok|Hin]; [exact Hok|now apply Hdb].
  - left. now apply H.
Qed.

Lemma stored_of_cart (db : Store) (c : Doc CartDoc.t) it :
  In c (db_cart db) -> In it (CartDoc.get_items (body c)) ->
  In (CartItem.quantity it) (stored_ints cart db).
Proof.
  intros Hc Hit. unfold stored_ints. apply in_flat_map. exists c.
  split; [exact Hc|]. simpl. now apply in_map.
Qed.

Lemma stored_ints_new_cart cs ps (carts : list (Doc CartDoc.t)) i sid :
  stored_ints cart (mkStore cs ps (carts ++ [mkDoc i (CartDoc.mk sid (Some []))]))
  = stored_ints cart (mkStore cs ps carts).
Proof.
  unfold stored_ints. simpl. rewrite flat_map_app. simpl. now rewrite app_nil_r.
Qed.

Lemma fits_new_cart cs ps (carts : list (Doc CartDoc.t)) i sid items :
  fits (mkStore cs ps (carts ++ [mkDoc i (CartDoc.mk sid (Some []))])) items
  = fits (mkStore cs ps carts) items.
Proof.
  unfold fits, encodable. now rewrite stored_ints_new_cart.
Qed.

(** What [cart_remove] writes back is a part of what the cart holds. *)
Lemma fits_filtered (db : Store) (c : Doc CartDoc.t) (f : CartItem.t -> bool) :
  In c (db_cart db) -> fits db (filter f (CartDoc.get_items (body c))) = true.
Proof.
  intros Hc. apply fits_iff. intros it Hit. right.
  apply filter_In in Hit. destruct Hit as [Hit _].
  exact (stored_of_cart db c it Hc Hit).
Qed.

(** What the scan does to the list, by the place of the first equal sku. *)
Lemma add_scan_miss items item :
  Forall (fun x => CartItem.sku x <> CartItem.sku item) items ->
  add_scan items item = (items, false).
Proof.
  induction 1 as [|x items Hx _ IH]; simpl; [reflexivity|].
  apply String.eqb_neq in Hx. now rewrite Hx, IH.
Qed.

Lemma add_scan_hit pre it post item :
  Forall (fun x => CartItem.sku x <> CartItem.sku item) pre ->
  CartItem.sku it = CartItem.sku item ->
  add_scan (pre ++ it :: post) item
  = (pre ++ CartItem.add_quantity it (CartItem.quantity item) :: post, true).
Proof.
  intros Hpre Hit. induction Hpre as [|x pre Hx _ IH]; simpl.
  - apply String.eqb_eq in Hit. now rewrite Hit.
  - apply String.eqb_neq in Hx. now rewrite Hx, IH.
Qed.

Lemma first_sku_split items (k : string) :
  (exists it, In it items /\ CartItem.sku it = k) ->
  exists pre it post,
    items = pre ++ it :: post /\
    Forall (fun x => CartItem.sku x <> k) pre /\
    CartItem.sku it = k.
Proof.
  induction items as [|x items IH]; intros (it & Hin & Hk); [contradiction|].
  destruct (string_dec (CartItem.sku x) k) as [E|N].
  - exists [], x, items. auto.
  - destruct IH as (pre & it' & post & -> & Hpre & Hk').
    + destruct Hin as [->|Hin]; [contradiction|eauto].
    + exists (x :: pre), it', post. auto.
Qed.

Lemma add_to_items_hit pre it post item :
  Forall (fun x => CartItem.sku x <> CartItem.sku item) pre ->
  CartItem.sku it = CartItem.sku item ->
  add_to_items (pre ++ it :: post) item
  = pre ++ CartItem.add_quantity it (CartItem.quantity item) :: post.
Proof.
  intros Hpre Hit. unfold add_to_items. now rewrite (add_scan_hit _ _ _ _ Hpre Hit).
Qed.

Lemma add_to_items_miss items item :
  Forall (fun x => CartItem.sku x <> CartItem.sku item) items ->
  add_to_items items item = items ++ [item].
Proof.
  intros H. unfold add_to_items. now rewrite (add_scan_miss _ _ H).
Qed.

Lemma sku_cases items (k : string) :
  (exists pre it post,
     items = pre ++ it :: post /\
     Forall (fun x => CartItem.sku x <> k) pre /\ CartItem.sku it = k) \/
  Forall (fun x => CartItem.sku x <> k) items.
Proof.
  induction items as [|x items IH]; [right; constructor|].
  destruct (string_dec (CartItem.sku x) k) as [E|N].
  - left. exists [], x, items. auto.
  - destruct IH as [(pre & it & post & -> & Hpre & Hit)|Hall].
    + left. exists (x :: pre), it, post. auto.
    + right. auto.
Qed.

Lemma find_first {A} (f : A -> bool) pre x post :
  Forall (fun y => f y = false) pre -> f x = true ->
  find f (pre ++ x :: post) = Some x.
Proof.
  induction 1 as [|y pre Hy _ IH]; simpl; intros Hx.
  - now rewrite Hx.
  - rewrite Hy. auto.
Qed.

Lemma find_nowhere {A} (f : A -> bool) l :
  Forall (fun y => f y = false) l -> find f l = None.
Proof.
  induction 1 as [|y l Hy _ IH]; simpl; [reflexivity|now rewrite Hy].
Qed.

Lemma written_quantity_hit pre it post item :
  Forall (fun x => CartItem.sku x <> CartItem.sku item) pre ->
  CartItem.sku it = CartItem.sku item ->
  written_quantity (pre ++ it :: post) item
  = (CartItem.quantity it + CartItem.quantity item)%Z.
Proof.
  intros Hpre Hit. unfold written_quantity.
  rewrite (find_first _ pre it post); [reflexivity| |now apply String.eqb_eq].
  apply Forall_forall. intros x Hx. apply String.eqb_neq.
  rewrite Forall_forall in Hpre. auto.
Qed.

Lemma written_quantity_miss items item :
  Forall (fun x => CartItem.sku x <> CartItem.sku item) items ->
  written_quantity items item = CartItem.quantity item.
Proof.
  intros H. unfold written_quantity.
  rewrite find_nowhere; [reflexivity|].
  apply Forall_forall. intros x Hx.
  apply String.eqb_neq. rewrite Forall_forall in H. auto.
Qed.

(** The list that [cart_add] writes can be encoded exactly when the
    quantity of the line that it writes can, the other lines being stored
    ones. *)
Lemma fits_added (db : Store) prior item :
  (forall it, In it prior -> In (CartItem.quantity it) (stored_ints cart db)) ->
  fits db (add_to_items prior item) = true <->
  (int64_ok (written_quantity prior item) = true \/
   In (written_quantity prior item) (stored_ints cart db)).
Proof.
  intros Hprior. rewrite fits_iff.
  destruct (sku_cases prior (CartItem.sku item))
    as [(pre & it & post & -> & Hpre & Hit)|Hmiss].
  - rewrite (add_to_items_hit _ _ _ _ Hpre Hit),
            (written_quantity_hit _ _ _ _ Hpre Hit).
    split.
    + intros H. apply (H (CartItem.add_quantity it (CartItem.quantity item))).
      apply in_or_app. right. now left.
    + intros H x Hx. apply in_app_or in Hx. destruct Hx as [Hx|[<-|Hx]].
      * right. apply Hprior. apply in_or_app. now left.
      * exact H.
      * right. apply Hprior. apply in_or_app. right. now right.
  - rewrite (add_to_items_miss _ _ Hmiss), (written_quantity_miss _ _ Hmiss).
    split.
    + intros H. apply (H item). apply in_or_app. right. now left.
    + intros H x Hx. apply in_app_or in Hx. destruct Hx as [Hx|[<-|[]]].
      * right. now apply Hprior.
      * exact H.
Qed.

(** *** The write-back and re-fetch that end [cart_add] and [cart_remove] *)

Lemma update_then_fetch (db : Store) pre (c : Doc CartDoc.t) post items :
  db_cart db = pre ++ c :: post ->
  Forall (fun x => by_id (_id c) x = false) pre ->
  fits db items = true ->
  (update_one cart (by_id (_id c)) (set_items_doc items) ;;
   find_one cart (by_id (_id c))) db
  = (inr (Some (mkDoc (_id c) (CartDoc.set_items items (body c)))),
     mkStore (db_category db) (db_product db)
       (pre ++ mkDoc (_id c) (CartDoc.set_items items (body c)) :: post)).
Proof.
  intros Hdb Hpre Hfits. unfold bind, update_one, find_one.
  unfold fits in Hfits. rewrite Hfits. simpl. rewrite Hdb.
  cbv [body_of] in *.
  rewrite (update_first_split _ (CartDoc.set_items items) pre c post Hpre (by_id_refl c)).
  rewrite (find_split (by_id (_id c)) pre
             (mkDoc (_id c) (CartDoc.set_items items (body c))) post Hpre);
    [reflexivity|apply N.eqb_refl].
Qed.

Lemma update_overflow {A} (db : Store) f items (k : M A) :
  fits db items = false ->
  (update_one cart f (set_items_doc items) ;; k) db
  = (inl (Uncaught "OverflowError"), db).
Proof.
  intros Hfits. unfold bind, update_one. unfold fits in Hfits. now rewrite Hfits.
Qed.

(** The store after the write-back, whatever the identifiers. *)
Lemma update_fetch_store (db : Store) f f' items :
  snd ((update_one cart f (set_items_doc items) ;; find_one cart f') db)
  = if fits db items
    then mkStore (db_category db) (db_product db)
           (update_first f (CartDoc.set_items items) (db_cart db))
    else db.
Proof.
  unfold bind, update_one, find_one, fits.
  destruct (encodable cart (set_items_doc items) db); reflexivity.
Qed.

Lemma cart_add_existing (db : Store) (req : UpdateCartRequest) pre c post :
  db_cart db = pre ++ c :: post ->
  Forall (fun x => by_session_id (req_session_id req) x = false) pre ->
  by_session_id (req_session_id req) c = true ->
  NoDup (map _id (db_cart db)) ->
  fits db (add_to_items (CartDoc.get_items (body c)) (req_item req)) = true ->
  let c' := mkDoc (_id c)
              (CartDoc.set_items
                 (add_to_items (CartDoc.get_items (body c)) (req_item req)) (body c)) in
  cart_add req db
  = (inr (Some c'), mkStore (db_category db) (db_product db) (pre ++ c' :: post)).
Proof.
  intros Hdb Hpre Hc Hids Hfits c'. unfold cart_add.
  unfold bind at 1. unfold find_one at 1. simpl.
  rewrite Hdb, (find_split _ pre c post Hpre Hc).
  unfold bind at 1. unfold ret at 1.
  apply update_then_fetch; [exact Hdb| |exact Hfits].
  rewrite Hdb in Hids. exact (unique_ids_before pre c post Hids).
Qed.

Lemma cart_add_existing_overflow (db : Store) (req : UpdateCartRequest) c :
  find (by_session_id (req_session_id req)) (db_cart db) = Some c ->
  fits db (add_to_items (CartDoc.get_items (body c)) (req_item req)) = false ->
  cart_add req db = (inl (Uncaught "OverflowError"), db).
Proof.
  intros Hf Hfits. unfold cart_add.
  unfold bind at 1. unfold find_one at 1. simpl. rewrite Hf.
  unfold bind at 1. unfold ret at 1.
  now apply update_overflow.
Qed.

(** The run of [cart_add] for a session without a cart, up to the
    write-back: the empty cart is created and fetched. *)
Lemma cart_add_new_start (db : Store) (req : UpdateCartRequest) :
  find (by_session_id (req_session_id req)) (db_cart db) = None ->
  let c0 := mkDoc (fresh_id (db_cart db))
              (CartDoc.mk (req_session_id req) (Some [])) in
  let db1 := mkStore (db_category db) (db_product db) (db_cart db ++ [c0]) in
  cart_add req db
  = (update_one cart (by_id (_id c0)) (set_items_doc [req_item req]) ;;
     find_one cart (by_id (_id c0))) db1.
Proof.
  intros Hnone c0 db1. unfold cart_add.
  unfold bind at 1. unfold find_one at 1. simpl. rewrite Hnone.
  unfold bind at 1. unfold bind at 1. unfold create_document at 1. simpl.
  unfold find_one at 1. simpl.
  rewrite (find_snoc_none _ _ _ Hnone). unfold by_session_id at 1. simpl.
  rewrite String.eqb_refl. reflexivity.
Qed.

Lemma cart_add_new (db : Store) (req : UpdateCartRequest) :
  find (by_session_id (req_session_id req)) (db_cart db) = None ->
  fits db [req_item req] = true ->
  let c' := mkDoc (fresh_id (db_cart db))
              (CartDoc.mk (req_session_id req) (Some [req_item req])) in
  cart_add req db
  = (inr (Some c'), mkStore (db_category db) (db_product db) (db_cart db ++ [c'])).
Proof.
  intros Hnone Hfits c'. rewrite (cart_add_new_start db req Hnone).
  set (c0 := mkDoc (fresh_id (db_cart db)) (CartDoc.mk (req_session_id req) (Some []))).
  set (db1 := mkStore _ _ _).
  assert (Hpre : Forall (fun x => by_id (_id c0) x = false) (db_cart db)).
  { apply Forall_forall. intros x Hx. apply N.eqb_neq.
    apply fresh_id_above in Hx. simpl. lia. }
  assert (Hfits1 : fits db1 [req_item req] = true).
  { subst db1 c0. rewrite fits_new_cart. now destruct db. }
  rewrite (update_then_fetch db1 (db_cart db) c0 [] _ eq_refl Hpre Hfits1).
  reflexivity.
Qed.

Lemma cart_add_new_overflow (db : Store) (req : UpdateCartRequest) :
  find (by_session_id (req_session_id req)) (db_cart db) = None ->
  fits db [req_item req] = false ->
  cart_add req db
  = (inl (Uncaught "OverflowError"),
     mkStore (db_category db) (db_product db)
       (db_cart db ++ [mkDoc (fresh_id (db_cart db))
                         (CartDoc.mk (req_session_id req) (Some []))])).
Proof.
  intros Hnone Hfits. rewrite (cart_add_new_start db req Hnone).
  apply update_overflow. rewrite fits_new_cart. now destruct db.
Qed.

Lemma cart_remove_missing (db : Store) (req : UpdateCartRequest) :
  find (by_session_id (req_session_id req)) (db_cart db) = None ->
  cart_remove req db = (inl (HTTPException 404 "Cart not found"), db).
Proof.
  intros Hnone. unfold cart_remove, bind, find_one. simpl. now rewrite Hnone.
Qed.

Lemma cart_remove_existing (db : Store) (req : UpdateCartRequest) pre c post :
  db_cart db = pre ++ c :: post ->
  Forall (fun x => by_session_id (req_session_id req) x = false) pre ->
  by_session_id (req_session_id req) c = true ->
  NoDup (map _id (db_cart db)) ->
  let kept :=
    filter (fun it => negb (CartItem.sku it =? CartItem.sku (req_item req))%string)
           (CartDoc.get_items (body c)) in
  let c' := mkDoc (_id c) (CartDoc.set_items kept (body c)) in
  cart_remove req db
  = (inr (Some c'), mkStore (db_category db) (db_product db) (pre ++ c' :: post)).
Proof.
  intros Hdb Hpre Hc Hids kept c'. unfold cart_remove.
  unfold bind at 1. unfold find_one at 1. simpl.
  rewrite Hdb, (find_split _ pre c post Hpre Hc).
  apply update_then_fetch; [exact Hdb| |].
  - rewrite Hdb in Hids. exact (unique_ids_before pre c post Hids).
  - apply fits_filtered. rewrite Hdb. apply in_or_app. right. now left.
Qed.

Lemma create_or_get_existing (db : Store) (c : Cart.t) e :
  find (by_session_id (Cart.session_id c)) (db_cart db) = Some e ->
  create_or_get_cart c db = (inr (Some e), db).
Proof.
  intros He. unfold create_or_get_cart, bind, find_one. simpl. now rewrite He.
Qed.

Lemma create_or_get_new (db : Store) (c : Cart.t) :
  find (by_session_id (Cart.session_id c)) (db_cart db) = None ->
  let c' := mkDoc (fresh_id (db_cart db)) (Cart_dict c) in
  create_or_get_cart c db
  = (inr (Some c'), mkStore (db_category db) (db_product db) (db_cart db ++ [c'])).
Proof.
  intros Hnone c'. unfold create_or_get_cart, bind, find_one, create_document.
  simpl. rewrite Hnone. simpl. rewrite (find_snoc_none _ _ _ Hnone).
  unfold by_session_id at 1. simpl. now rewrite String.eqb_refl.
Qed.

Lemma cart_add_existing_store (db : Store) (req : UpdateCartRequest) c :
  find (by_session_id (req_session_id req)) (db_cart db) = Some c ->
  let items := add_to_items (CartDoc.get_items (body c)) (req_item req) in
  snd (cart_add req db)
  = if fits db items
    then mkStore (db_category db) (db_product db)
           (update_first (by_id (_id c)) (CartDoc.set_items items) (db_cart db))
    else db.
Proof.
  intros Hf items. unfold cart_add.
  unfold bind at 1. unfold find_one at 1. simpl. rewrite Hf.
  unfold bind at 1. unfold ret at 1. apply update_fetch_store.
Qed.

Lemma cart_remove_existing_store (db : Store) (req : UpdateCartRequest) c :
  find (by_session_id (req_session_id req)) (db_cart db) = Some c ->
  snd (cart_remove req db)
  = mkStore (db_category db) (db_product db)
      (update_first (by_id (_id c))
         (CartDoc.set_items
            (filter (fun it => negb (CartItem.sku it =? CartItem.sku (req_item req))%string)
               (CartDoc.get_items (body c))))
         (db_cart db)).
Proof.
  intros Hf. unfold cart_remove.
  unfold bind at 1. unfold find_one at 1. simpl. rewrite Hf.
  rewrite update_fetch_store.
  now rewrite (fits_filtered db c _ (proj1 (find_some _ _ Hf))).
Qed.

(** What each cart operation does to the store, by whether the session has
    a cart and whether the driver can encode what [cart_add] writes. *)
Lemma run_op_shape (o : cart_op) (db : Store) :
  db_category (run_op o db) = db_category db /\
  db_product (run_op o db) = db_product db /\
  match find (by_session_id (op_session o)) (db_cart db), o with
  | Some _, GetOrCreate _ => db_cart (run_op o db) = db_cart db
  | Some c, AddItem req =>
      let items := add_to_items (CartDoc.get_items (body c)) (req_item req) in
      db_cart (run_op o db)
      = if fits db items
        then update_first (by_id (_id c)) (CartDoc.set_items items) (db_cart db)
        else db_cart db
  | Some c, RemoveItem req =>
      db_cart (run_op o db)
      = update_first (by_id (_id c))
          (CartDoc.set_items
             (filter (fun it => negb (CartItem.sku it =? CartItem.sku (req_item req))%string)
                (CartDoc.get_items (body c))))
          (db_cart db)
  | None, GetOrCreate c0 =>
      db_cart (run_op o db)
      = db_cart db ++ [mkDoc (fresh_id (db_cart db)) (Cart_dict c0)]
  | None, AddItem req =>
      db_cart (run_op o db)
      = db_cart db ++ [mkDoc (fresh_id (db_cart db))
                         (CartDoc.mk (req_session_id req)
                            (Some (if fits db [req_item req]
                                   then [req_item req] else [])))]
  | None, RemoveItem _ => db_cart (run_op o db) = db_cart db
  end.
Proof.
  destruct o as [c0|req|req]; unfold run_op, exec, op_session.
  - destruct (find _ _) as [e|] eqn:Hf.
    + now rewrite (create_or_get_existing db c0 e Hf).
    + now rewrite (create_or_get_new db c0 Hf).
  - destruct (find _ _) as [c|] eqn:Hf.
    + rewrite (cart_add_existing_store db req c Hf).
      destruct (fits db _); auto.
    + destruct (fits db [req_item req]) eqn:Hfits.
      * now rewrite (cart_add_new db req Hf Hfits).
      * now rewrite (cart_add_new_overflow db req Hf Hfits).
  - destruct (find _ _) as [c|] eqn:Hf.
    + rewrite (cart_remove_existing_store db req c Hf). auto.
    + now rewrite (cart_remove_missing db req Hf).
Qed.

(** *** Sessions of the stored carts *)

Lemma sessions_update_first f l items :
  map (fun d => CartDoc.session_id (body d))
      (update_first f (CartDoc.set_items items) l)
  = map (fun d : Doc CartDoc.t => CartDoc.session_id (body d)) l.
Proof.
  induction l as [|d l IH]; simpl; [reflexivity|].
  destruct (f d); simpl; [reflexivity|now f_equal].
Qed.

Lemma count_by_sessions s (l : list (Doc CartDoc.t)) :
  List.length (filter (by_session_id s) l)
  = List.length (filter (fun k => (k =? s)%string)
                   (map (fun d => CartDoc.session_id (body d)) l)).
Proof.
  induction l as [|d l IH]; simpl; [reflexivity|].
  unfold by_session_id at 1. destruct (_ =? _)%string; simpl; now rewrite IH.
Qed.

Lemma one_cart_update (db : Store) f items :
  one_cart_per_session db ->
  one_cart_per_session
    (mkStore (db_category db) (db_product db)
       (update_first f (CartDoc.set_items items) (db_cart db))).
Proof.
  intros H s. specialize (H s). simpl.
  rewrite count_by_sessions in *. now rewrite sessions_update_first.
Qed.

Lemma one_cart_insert (db : Store) (d : Doc CartDoc.t) :
  find (by_session_id (CartDoc.session_id (body d))) (db_cart db) = None ->
  one_cart_per_session db ->
  one_cart_per_session
    (mkStore (db_category db) (db_product db) (db_cart db ++ [d])).
Proof.
  intros Hnone H s. specialize (H s). simpl.
  rewrite filter_app, length_app. simpl.
  destruct (by_session_id s d) eqn:Hd; simpl; [|lia].
  apply String.eqb_eq in Hd. subst s.
  apply find_none_all in Hnone.
  replace (filter _ (db_cart db)) with (@nil (Doc CartDoc.t)); [simpl; lia|].
  symmetry. now apply filter_none.
Qed.

Lemma one_cart_same_carts (db db' : Store) :
  db_cart db' = db_cart db -> one_cart_per_session db -> one_cart_per_session db'.
Proof. intros E H s. rewrite E. apply H. Qed.

Lemma run_op_one_cart (o : cart_op) (db : Store) :
  one_cart_per_session db -> one_cart_per_session (run_op o db).
Proof.
  intros H. destruct (run_op_shape o db) as (_ & _ & Hcart).
  assert (Hupd : forall f items,
            db_cart (run_op o db) = update_first f (CartDoc.set_items items) (db_cart db) ->
            one_cart_per_session (run_op o db)).
  { intros f items E. apply (one_cart_same_carts (mkStore (db_category db) (db_product db) _) _ E).
    now apply one_cart_update. }
  assert (Hnew : forall b : CartDoc.t,
            find (by_session_id (CartDoc.session_id b)) (db_cart db) = None ->
            db_cart (run_op o db) = db_cart db ++ [mkDoc (fresh_id (db_cart db)) b] ->
            one_cart_per_session (run_op o db)).
  { intros b Hf E.
    apply (one_cart_same_carts (mkStore (db_category db) (db_product db) _) _ E).
    now apply one_cart_insert. }
  destruct (find _ _) as [c|] eqn:Hf; destruct o as [c0|req|req]; simpl in *.
  - exact (one_cart_same_carts db _ Hcart H).
  - destruct (fits db _);
      [exact (Hupd _ _ Hcart)|exact (one_cart_same_carts db _ Hcart H)].
  - exact (Hupd _ _ Hcart).
  - exact (Hnew (Cart_dict c0) Hf Hcart).
  - exact (Hnew (CartDoc.mk (req_session_id req) _) Hf Hcart).
  - exact (one_cart_same_carts db _ Hcart H).
Qed.

(** The cart operations keep the identifiers of the cart documents
    distinct, so the stores they reach meet the condition under which
    [cart_add] and [cart_remove] are described below. *)
Lemma run_op_unique_ids (o : cart_op) (db : Store) :
  NoDup (map _id (db_cart db)) -> NoDup (map _id (db_cart (run_op o db))).
Proof.
  intros H. destruct (run_op_shape o db) as (_ & _ & Hcart).
  destruct (find _ _) as [c|]; destruct o as [c0|req|req]; cbv zeta in Hcart;
    rewrite Hcart;
    try (destruct (fits db _));
    rewrite ?update_first_ids; auto; now apply fresh_id_snoc_unique.
Qed.

Lemma run_ops_unique_ids (ops : list cart_op) (db : Store) :
  NoDup (map _id (db_cart db)) -> NoDup (map _id (db_cart (run_ops ops db))).
Proof.
  unfold run_ops. revert db.
  induction ops as [|o ops IH]; simpl; intros db H; [exact H|].
  apply IH. now apply run_op_unique_ids.
Qed.

(** ** Cart service *)

(** C1, as stated, fails: the store holds a quantity in 8 bytes, so adding
    1 to a line that stands at 2^63 - 1 is refused by the driver: the call
    ends in [OverflowError] and the line stays as it was. *)
Lemma cart_add_refused_beyond_8_bytes :
  let line := CartItem.mk "p1" "A" 9223372036854775807 in
  let db := mkStore [] [] [mkDoc 7%N (CartDoc.mk "s1" (Some [line]))] in
  let req := mkUpdateCartRequest "s1" (CartItem.mk "p1" "A" 1) in
  CartItem_valid (req_item req) = true /\
  CartItem_valid line = true /\ int64_ok (CartItem.quantity line) = true /\
  outcome (cart_add req) db = inl (Uncaught "OverflowError") /\
  exec (cart_add req) db = db.
Proof.
  repeat split.
Qed.

(** C1, amended: in a store whose cart documents carry distinct identifiers
    (the store's index on [_id]), when the quantity that the call writes
    (that of the first line of equal sku plus the added one, or the added
    one for a new line) fits 8 bytes, [cart_add] is merge-or-append on the
    items of the session's cart.  With [prior] the items of the cart found
    for the session (none when the session has no cart yet), the handler
    returns the session's cart, now stored with the items [new]: when some
    prior line has the added item's sku, the first such line has its
    quantity raised by the item's quantity, every other line is as before
    and no line is added; otherwise [new] is [prior] followed by the item. *)
Theorem cart_add_merge_or_append (db : Store) (req : UpdateCartRequest) :
  NoDup (map _id (db_cart db)) ->
  let s := req_session_id req in
  let item := req_item req in
  let prior :=
    match find (by_session_id s) (db_cart db) with
    | Some c => CartDoc.get_items (body c)
    | None => []
    end in
  int64_ok (written_quantity prior item) = true ->
  exists c' new,
    outcome (cart_add req) db = inr (Some c') /\
    find (by_session_id s) (db_cart (exec (cart_add req) db)) = Some c' /\
    CartDoc.items (body c') = Some new /\
    ((exists it, In it prior /\ CartItem.sku it = CartItem.sku item) ->
     exists pre it post,
       prior = pre ++ it :: post /\
       Forall (fun x => CartItem.sku x <> CartItem.sku item) pre /\
       CartItem.sku it = CartItem.sku item /\
       new = pre ++ CartItem.mk (CartItem.product_id it) (CartItem.sku it)
                      (CartItem.quantity it + CartItem.quantity item) :: post /\
       List.length new = List.length prior) /\
    ((forall it, In it prior -> CartItem.sku it <> CartItem.sku item) ->
     new = prior ++ [item]).
Proof.
  intros Hids s item prior. subst prior.
  destruct (find (by_session_id s) (db_cart db)) as [c|] eqn:Hf; intros Hq.
  - destruct (find_some_split _ _ _ Hf) as (pre & post & Hdb & Hpre & Hc).
    assert (Hfits : fits db (add_to_items (CartDoc.get_items (body c)) item) = true).
    { apply fits_added; [|now left].
      intros it Hit. apply (stored_of_cart db c it); [|exact Hit].
      now apply find_some in Hf. }
    unfold outcome, exec.
    rewrite (cart_add_existing db req pre c post Hdb Hpre Hc Hids Hfits). simpl.
    eexists. exists (add_to_items (CartDoc.get_items (body c)) item).
    split; [reflexivity|]. split; [now apply find_split|].
    split; [reflexivity|]. unfold add_to_items. split.
    + intros Hex. apply first_sku_split in Hex.
      destruct Hex as (ipre & it & ipost & -> & Hipre & Hit).
      exists ipre, it, ipost. rewrite (add_scan_hit _ _ _ _ Hipre Hit).
      repeat split; auto. rewrite !length_app. reflexivity.
    + intros Hall. apply Forall_forall in Hall. now rewrite (add_scan_miss _ _ Hall).
  - assert (Hfits : fits db [item] = true).
    { apply fits_iff. intros it [<-|[]]. now left. }
    unfold outcome, exec. rewrite (cart_add_new db req Hf Hfits). simpl.
    eexists. exists [item]. split; [reflexivity|]. split.
    + rewrite (find_snoc_none _ _ _ Hf). unfold by_session_id. simpl.
      now rewrite String.eqb_refl.
    + split; [reflexivity|]. split; [|reflexivity].
      intros (it & [] & _).
Qed.

Lemma cart_add_merge_or_append_witness :
  let db := mkStore [] []
              [mkDoc 7%N (CartDoc.mk "s1" (Some [CartItem.mk "p1" "A" 2]))] in
  let req := mkUpdateCartRequest "s1" (CartItem.mk "p1" "A" 3) in
  exists c' new,
    outcome (cart_add req) db = inr (Some c') /\
    find (by_session_id "s1") (db_cart (exec (cart_add req) db)) = Some c' /\
    CartDoc.items (body c') = Some new /\
    ((exists it, In it [CartItem.mk "p1" "A" 2] /\ CartItem.sku it = "A") ->
     exists pre it post,
       [CartItem.mk "p1" "A" 2] = pre ++ it :: post /\
       Forall (fun x => CartItem.sku x <> "A") pre /\
       CartItem.sku it = "A" /\
       new = pre ++ CartItem.mk (CartItem.product_id it) (CartItem.sku it)
                      (CartItem.quantity it + 3) :: post /\
       List.length new = 1%nat) /\
    ((forall it, In it [CartItem.mk "p1" "A" 2] -> CartItem.sku it <> "A") ->
     new = [CartItem.mk "p1" "A" 2] ++ [CartItem.mk "p1" "A" 3]).
Proof.
  intros db req.
  apply (cart_add_merge_or_append db req).
  - simpl. constructor; [simpl; tauto|constructor].
  - reflexivity.
Defined.

Lemma filter_all {A} (f : A -> bool) (l : list A) :
  (forall x, In x l -> f x = true) -> filter f l = l.
Proof.
  induction l as [|x l IH]; simpl; intros H; [reflexivity|].
  rewrite (H x (or_introl eq_refl)). f_equal. auto.
Qed.

Lemma no_cart_iff (db : Store) (s : string) :
  find (by_session_id s) (db_cart db) = None <->
  (forall d, In d (db_cart db) -> CartDoc.session_id (body d) <> s).
Proof.
  rewrite find_none_all, Forall_forall. unfold by_session_id.
  split; intros H d Hd; apply String.eqb_neq; auto.
Qed.

(** C2: [cart_remove] ends with the 404 "Cart not found" exactly when no cart
    document has the session_id, and with no other error.  When the session
    has a cart (and cart documents carry distinct identifiers), the handler returns it, stored with the prior items less
    every line whose sku is the given one; when the cart has its items and
    none of them carries that sku, the returned cart is the stored one and
    the store is as before. *)
Theorem cart_remove_not_found_or_filtered (db : Store) (req : UpdateCartRequest) :
  let s := req_session_id req in
  let k := CartItem.sku (req_item req) in
  (outcome (cart_remove req) db = inl (HTTPException 404 "Cart not found")
   <-> (forall d, In d (db_cart db) -> CartDoc.session_id (body d) <> s)) /\
  (forall e, outcome (cart_remove req) db = inl e ->
             e = HTTPException 404 "Cart not found") /\
  (forall c,
     find (by_session_id s) (db_cart db) = Some c ->
     NoDup (map _id (db_cart db)) ->
     exists c',
       outcome (cart_remove req) db = inr (Some c') /\
       find (by_session_id s) (db_cart (exec (cart_remove req) db)) = Some c' /\
       _id c' = _id c /\
       CartDoc.session_id (body c') = CartDoc.session_id (body c) /\
       CartDoc.items (body c')
       = Some (filter (fun it => negb (CartItem.sku it =? k)%string)
                 (CartDoc.get_items (body c))) /\
       (forall l, CartDoc.items (body c) = Some l ->
                  (forall it, In it l -> CartItem.sku it <> k) ->
                  c' = c /\ exec (cart_remove req) db = db)).
Proof.
  intros s k.
  assert (Hsome : forall c, find (by_session_id s) (db_cart db) = Some c ->
                  exists r, outcome (cart_remove req) db = inr r).
  { intros c Hc. pose proof (fits_filtered db c
        (fun it => negb (CartItem.sku it =? CartItem.sku (req_item req))%string)
        (proj1 (find_some _ _ Hc))) as Hfits.
    unfold fits in Hfits.
    unfold outcome, cart_remove, bind, find_one, update_one.
    simpl. fold s. rewrite Hc. cbv [body_of] in *. rewrite Hfits. simpl. eauto. }
  split; [|split].
  - rewrite <- no_cart_iff. split.
    + intros H. destruct (find _ _) as [c|] eqn:Hf; [|reflexivity].
      destruct (Hsome c eq_refl) as [r Hr]. congruence.
    + intros Hf. unfold outcome. now rewrite (cart_remove_missing db req Hf).
  - intros e He. destruct (find (by_session_id s) (db_cart db)) as [c|] eqn:Hf.
    + destruct (Hsome c eq_refl) as [r Hr]. congruence.
    + unfold outcome in He. rewrite (cart_remove_missing db req Hf) in He.
      simpl in He. congruence.
  - intros c Hf Hids.
    destruct (find_some_split _ _ _ Hf) as (pre & post & Hdb & Hpre & Hc).
    unfold outcome, exec.
    rewrite (cart_remove_existing db req pre c post Hdb Hpre Hc Hids). simpl.
    eexists. split; [reflexivity|]. split; [now apply find_split|].
    repeat (split; [reflexivity|]).
    intros l Hl Hk. unfold CartDoc.get_items, CartDoc.set_items. rewrite Hl.
    rewrite filter_all.
    + destruct c as [i [cs ci]]. simpl in *. subst ci.
      split; [reflexivity|]. destruct db; simpl in *. now subst.
    + intros it Hit. apply negb_true_iff, String.eqb_neq. auto.
Qed.

Lemma cart_remove_not_found_or_filtered_witness :
  let c := mkDoc 4%N (CartDoc.mk "s1" (Some [CartItem.mk "p1" "A" 2])) in
  let db := mkStore [] [] [c] in
  let req := mkUpdateCartRequest "s1" (CartItem.mk "p2" "B" 1) in
  outcome (cart_remove req) db = inr (Some c) /\ exec (cart_remove req) db = db.
Proof.
  intros c db req.
  destruct (cart_remove_not_found_or_filtered db req) as (_ & _ & H).
  destruct (H c) as (c' & Hout & _ & _ & _ & _ & Hsame).
  - reflexivity.
  - simpl. constructor; [simpl; tauto|constructor].
  - destruct (Hsame [CartItem.mk "p1" "A" 2]) as [Hc Hdb].
    + reflexivity.
    + simpl. intros it [<-|[]]. simpl. discriminate.
    + split; [rewrite Hout; now rewrite Hc|exact Hdb].
Defined.




(** C10: when a cart is stored for the session, [create_or_get_cart] returns
    that cart as stored and leaves the whole store as it is, whatever items
    the request carries. *)
Theorem create_or_get_cart_existing_untouched
  (db : Store) (c : Cart.t) (existing : Doc CartDoc.t) :
  find (by_session_id (Cart.session_id c)) (db_cart db) = Some existing ->
  outcome (create_or_get_cart c) db = inr (Some existing) /\
  exec (create_or_get_cart c) db = db /\
  (forall items',
     create_or_get_cart (Cart.mk (Cart.session_id c) items') db
     = create_or_get_cart c db).
Proof.
  intros He. unfold outcome, exec.
  rewrite (create_or_get_existing db c existing He). simpl.
  repeat split. intros items'.
  now rewrite (create_or_get_existing db (Cart.mk _ items') existing He).
Qed.

Lemma create_or_get_cart_existing_untouched_witness :
  let stored := mkDoc 4%N (CartDoc.mk "s1" (Some [CartItem.mk "p1" "A" 2])) in
  let db := mkStore [] [] [stored] in
  let c := Cart.mk "s1" [CartItem.mk "p9" "Z" 9] in
  outcome (create_or_get_cart c) db = inr (Some stored) /\
  exec (create_or_get_cart c) db = db.
Proof.
  intros stored db c.
  destruct (create_or_get_cart_existing_untouched db c stored) as (H1 & H2 & _).
  - reflexivity.
  - split; assumption.
Defined.

(** C4: each cart operation keeps "at most one cart document per
    session_id", and so the property holds of every store reached from one
    without carts by running cart operations one after the other. *)
Theorem cart_ops_one_cart_per_session :
  (forall o db, one_cart_per_session db -> one_cart_per_session (run_op o db)) /\
  (forall ops db, db_cart db = [] -> one_cart_per_session (run_ops ops db)).
Proof.
  split; [exact run_op_one_cart|].
  intros ops db Hempty.
  assert (H0 : one_cart_per_session db).
  { intros s. rewrite Hempty. simpl. lia. }
  clear Hempty. revert db H0. unfold run_ops.
  induction ops as [|o ops IH]; simpl; intros db H0; [exact H0|].
  apply IH. now apply run_op_one_cart.
Qed.

Lemma cart_ops_one_cart_per_session_witness :
  let a := mkUpdateCartRequest "s1" (CartItem.mk "p1" "A" 2) in
  let b := mkUpdateCartRequest "s2" (CartItem.mk "p1" "A" 1) in
  one_cart_per_session
    (run_ops [AddItem a; GetOrCreate (Cart.mk "s1" []); AddItem b; RemoveItem a]
       empty_store) /\
  one_cart_per_session (run_op (AddItem a) empty_store).
Proof.
  intros a b. split.
  - apply (proj2 cart_ops_one_cart_per_session). reflexivity.
  - apply (proj1 cart_ops_one_cart_per_session). intros s. simpl. lia.
Defined.

(** ** Seed loader *)

Lemma seed_skips (db : Store) :
  db_category db <> [] -> db_product db <> [] ->
  seed (mkSeedRequest false) db
  = (inr [("status", JStr "ok"); ("message", JStr "Already seeded")], db).
Proof.
  destruct db as [[|c cs] [|p ps] carts]; simpl; intros Hc Hp;
    try contradiction; reflexivity.
Qed.

(** A run of [seed] that gets past the guard: both collections are cleared
    and refilled, whatever they held. *)
Lemma seed_reloads (req : SeedRequest) (db : Store) :
  outcome (seed_guard req) db = inr false ->
  seed req db
  = (inr [("status", JStr "ok"); ("seeded", JNum 4)],
     mkStore (db_category (exec (seed (mkSeedRequest true)) empty_store))
             (db_product (exec (seed (mkSeedRequest true)) empty_store))
             (db_cart db)).
Proof.
  destruct req as [[|]]; destruct db as [[|c cs] [|p ps] carts];
    unfold outcome; simpl; intros H; try discriminate; reflexivity.
Qed.

(** C7: with [force] false and a document in both collections, [seed]
    changes nothing and answers "Already seeded"; hence a second call with
    [force] false leaves the store as the first call left it, with the same
    numbers of categories and products. *)
Theorem seed_unforced_idempotent (db : Store) :
  let once := exec (seed (mkSeedRequest false)) db in
  let twice := exec (seed (mkSeedRequest false)) once in
  (db_category db <> [] -> db_product db <> [] ->
   outcome (seed (mkSeedRequest false)) db
   = inr [("status", JStr "ok"); ("message", JStr "Already seeded")] /\
   once = db) /\
  twice = once /\
  List.length (db_category twice) = List.length (db_category once) /\
  List.length (db_product twice) = List.length (db_product once) /\
  outcome (seed (mkSeedRequest false)) once
  = inr [("status", JStr "ok"); ("message", JStr "Already seeded")].
Proof.
  intros once twice.
  assert (Hskip : db_category once <> [] /\ db_product once <> []).
  { subst once. unfold exec.
    destruct db as [[|c cs] [|p ps] carts]; simpl; split; discriminate. }
  destruct Hskip as [Hc Hp].
  assert (Htwice : twice = once).
  { subst twice. unfold exec. now rewrite (seed_skips once Hc Hp). }
  split; [|split; [exact Htwice|]].
  - intros Hc0 Hp0. subst once. unfold outcome, exec.
    now rewrite (seed_skips db Hc0 Hp0).
  - rewrite Htwice. repeat split. unfold outcome.
    now rewrite (seed_skips once Hc Hp).
Qed.

Lemma seed_unforced_idempotent_witness :
  let db := mkStore [mkDoc 9%N (Category.mk "Sale" "sale" "men")]
              (map (mkDoc 5%N) (firstn 1 sample_products))
              [] in
  outcome (seed (mkSeedRequest false)) db
  = inr [("status", JStr "ok"); ("message", JStr "Already seeded")] /\
  exec (seed (mkSeedRequest false)) db = db.
Proof.
  intros db.
  apply (proj1 (seed_unforced_idempotent db)); simpl; discriminate.
Defined.

(** C8: whatever the store holds, [seed] with [force] true leaves in the
    category collection the 3 reference categories and in the product
    collection the 4 reference products, in their order and nothing else:
    the two collections end as they do from an empty store, so every
    document they held before is gone.  The carts are not touched. *)
Theorem seed_forced_resets (db : Store) :
  let db' := exec (seed (mkSeedRequest true)) db in
  map body (db_category db') = categories /\
  map body (db_product db') = sample_products /\
  List.length (db_category db') = 3%nat /\
  List.length (db_product db') = 4%nat /\
  db_category db' = db_category (exec (seed (mkSeedRequest true)) empty_store) /\
  db_product db' = db_product (exec (seed (mkSeedRequest true)) empty_store) /\
  NoDup (map _id (db_category db')) /\
  NoDup (map _id (db_product db')) /\
  db_cart db' = db_cart db /\
  outcome (seed (mkSeedRequest true)) db
  = inr [("status", JStr "ok"); ("seeded", JNum 4)].
Proof.
  intros db'. subst db'. unfold exec, outcome.
  rewrite (seed_reloads (mkSeedRequest true) db eq_refl). simpl.
  repeat split.
  - repeat constructor; simpl; intuition discriminate.
  - repeat constructor; simpl; intuition discriminate.
Qed.

(** ** Catalog service *)

Lemma prefix_by_ext cm1 cm2 p s :
  Forall (fun a => forall b, cm1 a b = cm2 a b) (list_ascii_of_string p) ->
  prefix_by cm1 p s = prefix_by cm2 p s.
Proof.
  revert s. induction p as [|a p IH]; simpl; intros s H; [reflexivity|].
  inversion H as [|? ? Ha Hp]; subst.
  destruct s as [|b s]; [reflexivity|]. now rewrite Ha, IH.
Qed.

Lemma search_by_ext cm1 cm2 p s :
  Forall (fun a => forall b, cm1 a b = cm2 a b) (list_ascii_of_string p) ->
  search_by cm1 p s = search_by cm2 p s.
Proof.
  intros H. induction s as [|b s IH]; simpl.
  - now rewrite (prefix_by_ext cm1 cm2 p "" H).
  - now rewrite (prefix_by_ext cm1 cm2 p (String b s) H), IH.
Qed.

(** The engine [regex_dot] reads patterns of ordinary characters as plain
    text. *)
Lemma regex_dot_reads_plain_ascii : reads_plain_ascii regex_dot.
Proof.
  intros q Hq _. exists (search_by dot_char q). unfold regex_dot, plain in *.
  split.
  - replace (forallb _ _) with true; [reflexivity|].
    symmetry. rewrite forallb_forall in *. intros c Hc.
    now rewrite (Hq c Hc).
  - intros t _. apply search_by_ext. apply Forall_forall. intros a Ha b.
    rewrite forallb_forall in Hq. specialize (Hq a Ha).
    unfold dot_char. destruct (a =? ".")%char eqn:E; [|reflexivity].
    apply Ascii.eqb_eq in E. subst a. discriminate.
Qed.

(** On ASCII titles, an engine that reads ASCII patterns of ordinary
    characters as plain text matches such a query on exactly the titles
    that contain it. *)
Lemma plain_ascii_reads_on
  (regex_compile : string -> string -> option (string -> bool))
  (q : string) (db : Store) :
  reads_plain_ascii regex_compile ->
  plain q = true -> ascii_text q = true -> ascii_titles db ->
  reads_plain_on regex_compile q db.
Proof.
  intros Hlaw Hplain Hascii Htitles.
  destruct (Hlaw q Hplain Hascii) as (m & Hm & Hmt).
  exists m. split; [exact Hm|]. intros d Hd. apply Hmt. now apply Htitles.
Qed.

Lemma given_cases (o : option string) :
  (truthy o = true /\ given o = Some (str_of o)) \/
  (truthy o = false /\ given o = None).
Proof.
  unfold given. destruct o as [s|]; simpl; [|now right].
  destruct (s =? "")%string; simpl; auto.
Qed.

Lemma firstn_at_most {A} (n : nat) (l : list A) : (List.length (firstn n l) <= n)%nat.
Proof.
  revert l. induction n as [|n IH]; intros [|x l]; simpl; try lia.
  specialize (IH l). lia.
Qed.

(** A run of [list_products]: the text filters that are given and
    [featured] are tested by equality, and a given [q] is handed to the
    store as a pattern for the title. *)
Lemma list_products_run
  (regex_compile : string -> string -> option (string -> bool))
  (db : Store) (gender ptype category_ : option string)
  (featured : option bool) (q : option string) :
  list_products regex_compile gender ptype category_ featured q db
  = match (if truthy q then regex_compile (str_of q) "i"
           else Some (fun _ => true)) with
    | Some m =>
        (inr (filter (fun d =>
                        satisfies (given gender) (given ptype) (given category_)
                          featured None d
                        && m (Product.title (body d)))
                (db_product db)), db)
    | None => (inl (Uncaught "OperationFailure"), db)
    end.
Proof.
  unfold list_products, get_documents, coll_find, satisfies.
  destruct (given_cases gender) as [[Tg ->]|[Tg ->]];
  destruct (given_cases ptype) as [[Tt ->]|[Tt ->]];
  destruct (given_cases category_) as [[Tc ->]|[Tc ->]];
  rewrite Tg, Tt, Tc;
  destruct (truthy q);
  destruct featured as [b|];
  cbn; try (destruct (regex_compile (str_of q) "i") as [m|]; [|reflexivity]);
  cbn; unfold ret; do 2 f_equal;
  apply filter_ext; intros d; rewrite ?andb_true_r, ?andb_assoc;
  reflexivity.
Qed.

(** A run of [search_products] on a query that is not empty. *)
Lemma search_products_run
  (regex_compile : string -> string -> option (string -> bool))
  (db : Store) (q : string) :
  q <> "" ->
  search_products regex_compile q db
  = match regex_compile q "i" with
    | Some m =>
        (inr (firstn 10 (filter (fun d => m (Product.title (body d)))
                           (db_product db))), db)
    | None => (inl (Uncaught "OperationFailure"), db)
    end.
Proof.
  intros Hq. apply String.eqb_neq in Hq.
  unfold search_products. rewrite Hq.
  unfold bind, coll_find, compile_filter, compile_cond.
  destruct (regex_compile q "i") as [m|]; [|reflexivity].
  cbn -[firstn]. unfold ret. do 3 f_equal. apply filter_ext. intros d.
  apply andb_true_r.
Qed.

(** C5, as stated, fails: the query is handed to the store as a regular
    expression, so [search_products] with the query [.] returns every seeded
    product, none of whose titles holds a dot. *)
Lemma search_products_reads_pattern :
  let db := exec (seed (mkSeedRequest true)) empty_store in
  outcome (search_products regex_dot ".") db = inr (db_product db) /\
  List.length (db_product db) = 4%nat /\
  filter (fun d => contains_ci "." (Product.title (body d))) (db_product db) = [].
Proof.
  repeat split.
Qed.

(** C5, amended: for a query [q] and stored titles in ASCII such that the
    store matches [q], taken as a pattern under the option [i], on exactly
    the stored titles that contain it as a case-insensitive substring,
    [search_products] returns, in store order, the first 10 of the products
    whose title contains [q] as a case-insensitive substring, and all of
    them when they are at most 10.  An engine that reads ASCII patterns
    free of regular-expression metacharacters as plain text matches every
    such [q] so.  For every query the result has at most 10 products, the
    empty query returns the empty sequence, and the store is left as it is. *)
Theorem search_products_plain_query
  (regex_compile : string -> string -> option (string -> bool))
  (db : Store) (q : string) :
  let hits :=
    filter (fun d => contains_ci q (Product.title (body d))) (db_product db) in
  let claimed :=
    outcome (search_products regex_compile q) db
    = inr (if (q =? "")%string then [] else firstn 10 hits) /\
    (q <> "" -> (List.length hits <= 10)%nat ->
     outcome (search_products regex_compile q) db = inr hits) in
  outcome (search_products regex_compile "") db = inr [] /\
  exec (search_products regex_compile q) db = db /\
  (forall docs, outcome (search_products regex_compile q) db = inr docs ->
                (List.length docs <= 10)%nat) /\
  (ascii_text q = true -> ascii_titles db ->
   reads_plain_on regex_compile q db -> claimed) /\
  (ascii_text q = true -> ascii_titles db ->
   reads_plain_ascii regex_compile -> plain q = true -> claimed).
Proof.
  intros hits claimed.
  assert (Hon : reads_plain_on regex_compile q db -> claimed).
  { subst claimed hits. intros (m & Hm & Hmt).
    destruct (string_dec q "") as [->|Hq].
    - split; [reflexivity|]. intros Hne. contradiction.
    - unfold outcome. rewrite (search_products_run regex_compile db q Hq), Hm.
      cbn [fst]. apply String.eqb_neq in Hq. rewrite Hq.
      assert (E : filter (fun d : Doc Product.t => m (Product.title (body d)))
                    (db_product db)
                  = filter (fun d => contains_ci q (Product.title (body d)))
                      (db_product db)).
      { apply filter_ext_in. intros d Hd. now apply Hmt. }
      rewrite E. split; [reflexivity|].
      intros _ Hlen. now rewrite firstn_all2. }
  split; [reflexivity|].
  split; [|split; [|split]].
  - destruct (string_dec q "") as [->|Hq]; [reflexivity|].
    unfold exec. rewrite (search_products_run regex_compile db q Hq).
    destruct (regex_compile q "i"); reflexivity.
  - intros docs. destruct (string_dec q "") as [->|Hq].
    + intros H. injection H as <-. simpl. lia.
    + unfold outcome. rewrite (search_products_run regex_compile db q Hq).
      destruct (regex_compile q "i"); cbn [fst]; [|discriminate].
      intros H.
      apply (f_equal (fun r : exn + list (Doc Product.t) =>
                        match r with inl _ => 0%nat | inr l => List.length l end)) in H.
      cbn beta iota in H. rewrite <- H. apply firstn_at_most.
  - intros _ _. exact Hon.
  - intros Hascii Htitles Hlaw Hplain. apply Hon.
    now apply plain_ascii_reads_on.
Qed.

Lemma search_products_plain_query_witness :
  let db := exec (seed (mkSeedRequest true)) empty_store in
  outcome (search_products regex_dot "WOOL") db
  = inr (filter (fun d => contains_ci "WOOL" (Product.title (body d))) (db_product db)).
Proof.
  intros db.
  destruct (search_products_plain_query regex_dot db "WOOL") as (_ & _ & _ & _ & H).
  assert (Htitles : ascii_titles db).
  { intros d [<-|[<-|[<-|[<-|[]]]]]; reflexivity. }
  destruct (H eq_refl Htitles regex_dot_reads_plain_ascii eq_refl) as [_ Hall].
  apply Hall.
  - discriminate.
  - simpl. lia.
Defined.

(** C6, as stated, fails: [q] is read as a regular expression, so the query
    [.] keeps every seeded product although no title holds a dot; and a text
    filter given as the empty string imposes no constraint, so an empty
    gender keeps every seeded product although none has an empty gender. *)
Lemma list_products_pattern_and_empty :
  let db := exec (seed (mkSeedRequest true)) empty_store in
  outcome (list_products regex_dot None None None None (Some ".")) db
  = inr (db_product db) /\
  filter (satisfies None None None None (Some ".")) (db_product db) = [] /\
  outcome (list_products regex_dot (Some "") None None None None) db
  = inr (db_product db) /\
  filter (satisfies (Some "") None None None None) (db_product db) = [] /\
  List.length (db_product db) = 4%nat.
Proof.
  repeat split.
Qed.

(** C6, amended: for every combination of the optional filters, where a
    given [q] and the stored titles are ASCII and the store matches [q],
    taken as a pattern under the option [i], on exactly the stored titles
    that contain it as a case-insensitive substring (as an engine does a
    [q] free of regular-expression metacharacters), [list_products] returns,
    in store order, exactly the products that satisfy the logical AND of the
    given constraints: equality for gender, type, category and featured,
    and case-insensitive substring on the title for [q].  A filter that is
    absent imposes no constraint, and neither does a text filter given as
    the empty string; with [q] absent or empty nothing is asked of the
    store's engine; the store is left as it is. *)
Theorem list_products_and_of_given
  (regex_compile : string -> string -> option (string -> bool))
  (db : Store) (gender ptype category_ : option string)
  (featured : option bool) (q : option string) :
  let claimed :=
    list_products regex_compile gender ptype category_ featured q db
    = (inr (filter (satisfies (given gender) (given ptype) (given category_)
                      featured (given q))
              (db_product db)),
       db) in
  (given q = None -> claimed) /\
  (ascii_text (str_of q) = true -> ascii_titles db ->
   reads_plain_on regex_compile (str_of q) db -> claimed) /\
  (ascii_text (str_of q) = true -> ascii_titles db ->
   reads_plain_ascii regex_compile -> plain (str_of q) = true -> claimed).
Proof.
  intros claimed.
  assert (Hnone : given q = None -> claimed).
  { subst claimed. intros Hq. rewrite list_products_run, Hq.
    destruct (given_cases q) as [[_ E]|[Tq _]]; [congruence|]. rewrite Tq.
    do 2 f_equal. apply filter_ext. intros d. unfold satisfies.
    now rewrite !andb_true_r. }
  assert (Hon : reads_plain_on regex_compile (str_of q) db -> claimed).
  { intros (m & Hm & Hmt).
    destruct (given_cases q) as [[Tq E]|[_ E]]; [|now apply Hnone].
    subst claimed. rewrite list_products_run, Tq, Hm, E.
    do 2 f_equal. apply filter_ext_in. intros d Hd. unfold satisfies.
    now rewrite (Hmt d Hd), !andb_true_r. }
  split; [exact Hnone|]. split.
  - intros _ _. exact Hon.
  - intros Hascii Htitles Hlaw Hplain. apply Hon.
    now apply plain_ascii_reads_on.
Qed.

Lemma list_products_and_of_given_witness :
  let db := exec (seed (mkSeedRequest true)) empty_store in
  outcome (list_products regex_dot (Some "men") None None (Some true) None) db
  = inr (filter (satisfies (Some "men") None None (Some true) None) (db_product db)) /\
  outcome (list_products regex_dot (Some "men") None None None (Some "wool")) db
  = inr (filter (satisfies (Some "men") None None None (Some "wool")) (db_product db)).
Proof.
  intros db.
  assert (Htitles : ascii_titles db).
  { intros d [<-|[<-|[<-|[<-|[]]]]]; reflexivity. }
  unfold outcome. split.
  - rewrite (proj1 (list_products_and_of_given regex_dot db (Some "men") None None
                      (Some true) None) eq_refl).
    reflexivity.
  - rewrite (proj2 (proj2 (list_products_and_of_given regex_dot db (Some "men")
                             None None None (Some "wool")))
               eq_refl Htitles regex_dot_reads_plain_ascii eq_refl).
    reflexivity.
Defined.

(** C9: [get_product] ends with the 400 "Invalid id", a client error, for
    an identifier that the store's reader rejects, whatever the store holds
    and leaving it as it is, so neither as a 404 nor as a server error; it ends with the 404 "Product not found" for an
    identifier that reads well and that no product carries; and it returns
    the product that carries the identifier when there is one. *)
Theorem get_product_invalid_or_missing
  (ObjectId_of_str : string -> option ObjectId)
  (db : Store) (product_id : string) :
  (ObjectId_of_str product_id = None ->
   forall db',
     get_product ObjectId_of_str product_id db'
     = (inl (HTTPException 400 "Invalid id"), db') /\
     (forall e, outcome (get_product ObjectId_of_str product_id) db' = inl e ->
                (400 <= status_of e < 500)%nat /\ status_of e <> 404%nat)) /\
  (forall o,
     ObjectId_of_str product_id = Some o ->
     (forall d, In d (db_product db) -> _id d <> o) ->
     get_product ObjectId_of_str product_id db
     = (inl (HTTPException 404 "Product not found"), db)) /\
  (forall o d,
     ObjectId_of_str product_id = Some o ->
     find (by_id o) (db_product db) = Some d ->
     get_product ObjectId_of_str product_id db = (inr d, db) /\ _id d = o).
Proof.
  unfold outcome, get_product, oid, bind, find_one. split; [|split].
  - intros Hbad db'. rewrite Hbad. simpl. split; [reflexivity|].
    intros e He. injection He as <-. simpl. lia.
  - intros o Ho Hnone. rewrite Ho. simpl.
    replace (find (by_id o) (db_product db)) with (@None (Doc Product.t));
      [reflexivity|].
    symmetry. apply find_none_all, Forall_forall. intros d Hd.
    apply N.eqb_neq. auto.
  - intros o d Ho Hd. rewrite Ho. simpl. cbv [body_of] in *. rewrite Hd.
    split; [reflexivity|].
    apply find_some in Hd. destruct Hd as [_ Hd]. now apply N.eqb_eq in Hd.
Qed.

Lemma get_product_invalid_or_missing_witness :
  let db := exec (seed (mkSeedRequest true)) empty_store in
  get_product ObjectId_hex "not-a-valid-id" db
  = (inl (HTTPException 400 "Invalid id"), db) /\
  get_product ObjectId_hex "00000000000000000000002a" db
  = (inl (HTTPException 404 "Product not found"), db).
Proof.
  intros db.
  destruct (get_product_invalid_or_missing ObjectId_hex db "not-a-valid-id")
    as (Hbad & _ & _).
  destruct (get_product_invalid_or_missing ObjectId_hex db "00000000000000000000002a")
    as (_ & Hmissing & _).
  split.
  - apply (Hbad eq_refl db).
  - apply (Hmissing 42%N); [reflexivity|].
    simpl. intros d [<-|[<-|[<-|[<-|[]]]]]; discriminate.
Defined.

(** ** More on the cart handlers *)

Lemma by_session_id_set_items s i (b : CartDoc.t) items :
  by_session_id s (mkDoc i (CartDoc.set_items items b)) = by_session_id s (mkDoc i b).
Proof. reflexivity. Qed.


(** X2: no cart operation deletes or re-keys a cart document: the
    identifiers and the session_ids of the stored carts stay as they are,
    in order, followed by at most one new document; the category and product
    collections are not touched. *)
Theorem cart_ops_never_delete (o : cart_op) (db : Store) :
  (exists added,
     (List.length added <= 1)%nat /\
     map _id (db_cart (run_op o db)) = map _id (db_cart db) ++ map _id added /\
     map (fun d => CartDoc.session_id (body d)) (db_cart (run_op o db))
     = map (fun d => CartDoc.session_id (body d)) (db_cart db)
       ++ map (fun d => CartDoc.session_id (body d)) added) /\
  db_category (run_op o db) = db_category db /\
  db_product (run_op o db) = db_product db.
Proof.
  destruct (run_op_shape o db) as (Hc & Hp & Hcart).
  split; [|auto].
  destruct (find _ _) as [c|]; destruct o as [c0|req|req]; cbv zeta in Hcart;
    rewrite Hcart; try (destruct (fits db _));
    first [ exists []; rewrite !app_nil_r, ?update_first_ids, ?sessions_update_first;
            simpl; now auto
          | eexists [_]; rewrite !map_app; now auto ].
Qed.

(** X3: a cart operation leaves the carts of every other session as they
    are, in a store whose cart documents carry distinct identifiers. *)
Theorem cart_ops_other_sessions (o : cart_op) (db : Store) (s' : string) :
  NoDup (map _id (db_cart db)) ->
  s' <> op_session o ->
  filter (by_session_id s') (db_cart (run_op o db))
  = filter (by_session_id s') (db_cart db).
Proof.
  intros Hids Hs.
  assert (Hupd : forall c items,
            find (by_session_id (op_session o)) (db_cart db) = Some c ->
            filter (by_session_id s')
              (update_first (by_id (_id c)) (CartDoc.set_items items) (db_cart db))
            = filter (by_session_id s') (db_cart db)).
  { intros c items Hf.
    destruct (find_some_split _ _ _ Hf) as (pre & post & Hdb & Hpre & Hc).
    rewrite Hdb in Hids |- *.
    rewrite (update_first_split _ _ pre c post
               (unique_ids_before pre c post Hids) (by_id_refl c)).
    rewrite !filter_app. simpl.
    rewrite by_session_id_set_items.
    replace (mkDoc (_id c) (body c)) with c by now destruct c.
    assert (E : by_session_id s' c = false).
    { unfold by_session_id in *. apply String.eqb_eq in Hc.
      apply String.eqb_neq. congruence. }
    now rewrite E. }
  assert (Hnew : forall b : CartDoc.t,
            CartDoc.session_id b = op_session o ->
            filter (by_session_id s') (db_cart db ++ [mkDoc (fresh_id (db_cart db)) b])
            = filter (by_session_id s') (db_cart db)).
  { intros b Hb. rewrite filter_app. simpl. unfold by_session_id at 2. simpl.
    rewrite Hb. replace (op_session o =? s')%string with false.
    - apply app_nil_r.
    - symmetry. apply String.eqb_neq. congruence. }
  destruct (run_op_shape o db) as (_ & _ & Hcart).
  destruct (find _ _) as [c|] eqn:Hf; destruct o as [c0|req|req];
    cbv zeta in Hcart; rewrite Hcart; try (destruct (fits db _)); auto.
Qed.

Lemma cart_ops_other_sessions_witness :
  let a := mkDoc 1%N (CartDoc.mk "s1" (Some [CartItem.mk "p1" "A" 2])) in
  let b := mkDoc 2%N (CartDoc.mk "s2" (Some [CartItem.mk "p1" "A" 1])) in
  filter (by_session_id "s2")
    (db_cart (run_op (AddItem (mkUpdateCartRequest "s1" (CartItem.mk "p1" "A" 3)))
                (mkStore [] [] [a; b])))
  = [b].
Proof.
  intros a b.
  rewrite (cart_ops_other_sessions
             (AddItem (mkUpdateCartRequest "s1" (CartItem.mk "p1" "A" 3)))
             (mkStore [] [] [a; b]) "s2").
  - reflexivity.
  - simpl. repeat constructor; simpl; intuition discriminate.
  - simpl. discriminate.
Defined.

(** *** The list that [cart_add] writes back *)

Lemma add_to_items_skus items item :
  map CartItem.sku (add_to_items items item)
  = if existsb (fun x => (CartItem.sku x =? CartItem.sku item)%string) items
    then map CartItem.sku items
    else map CartItem.sku items ++ [CartItem.sku item].
Proof.
  destruct (sku_cases items (CartItem.sku item))
    as [(pre & it & post & -> & Hpre & Hit)|Hall].
  - rewrite (add_to_items_hit _ _ _ _ Hpre Hit).
    replace (existsb _ _) with true.
    + rewrite !map_app. reflexivity.
    + symmetry. apply existsb_exists. exists it.
      split; [apply in_or_app; right; now left|now apply String.eqb_eq].
  - rewrite (add_to_items_miss _ _ Hall).
    replace (existsb _ _) with false.
    + now rewrite map_app.
    + symmetry. apply not_true_is_false. intros H.
      apply existsb_exists in H. destruct H as (x & Hx & E).
      apply String.eqb_eq in E. rewrite Forall_forall in Hall.
      exact (Hall x Hx E).
Qed.

Lemma add_to_items_distinct items item :
  NoDup (map CartItem.sku items) ->
  NoDup (map CartItem.sku (add_to_items items item)).
Proof.
  intros H. rewrite add_to_items_skus.
  destruct (existsb _ _) eqn:E; [exact H|].
  apply NoDup_rev in H. rewrite <- (rev_involutive (_ ++ _)), rev_app_distr.
  apply NoDup_rev. simpl. constructor; [|exact H].
  rewrite <- in_rev. intros Hin. apply in_map_iff in Hin.
  destruct Hin as (x & Hx & Hin).
  assert (Ht : existsb (fun x => (CartItem.sku x =? CartItem.sku item)%string) items = true).
  { apply existsb_exists. exists x. split; [exact Hin|now apply String.eqb_eq]. }
  congruence.
Qed.

Lemma add_to_items_valid items item :
  CartItem_valid item = true ->
  Forall (fun x => CartItem_valid x = true) items ->
  Forall (fun x => CartItem_valid x = true) (add_to_items items item).
Proof.
  intros Hitem Hall.
  destruct (sku_cases items (CartItem.sku item))
    as [(pre & it & post & -> & Hpre & Hit)|Hmiss].
  - rewrite (add_to_items_hit _ _ _ _ Hpre Hit).
    apply Forall_app in Hall. destruct Hall as [H1 H2].
    inversion H2 as [|? ? Hv Hpost]; subst.
    apply Forall_app. split; [exact H1|]. constructor; [|exact Hpost].
    unfold CartItem_valid in *. simpl.
    apply Z.leb_le in Hitem, Hv. apply Z.leb_le. lia.
  - rewrite (add_to_items_miss _ _ Hmiss). apply Forall_app. auto.
Qed.

Lemma add_to_items_twice items p k q1 q2 :
  add_to_items (add_to_items items (CartItem.mk p k q1)) (CartItem.mk p k q2)
  = add_to_items items (CartItem.mk p k (q1 + q2)).
Proof.
  destruct (sku_cases items k) as [(pre & it & post & -> & Hpre & Hit)|Hmiss].
  - rewrite (add_to_items_hit pre it post (CartItem.mk p k q1) Hpre Hit).
    rewrite (add_to_items_hit pre it post (CartItem.mk p k (q1 + q2)) Hpre Hit).
    cbn [CartItem.quantity].
    rewrite (add_to_items_hit pre (CartItem.add_quantity it q1) post
               (CartItem.mk p k q2) Hpre Hit).
    unfold CartItem.add_quantity. simpl. now rewrite Z.add_assoc.
  - rewrite (add_to_items_miss items (CartItem.mk p k q1) Hmiss).
    rewrite (add_to_items_miss items (CartItem.mk p k (q1 + q2)) Hmiss).
    now rewrite (add_to_items_hit items (CartItem.mk p k q1) [] (CartItem.mk p k q2)
                   Hmiss eq_refl).
Qed.

Lemma in_update_first {T} (f : Doc T -> bool) (g : T -> T) (l : list (Doc T)) d :
  In d (update_first f g l) ->
  In d l \/ exists d0, In d0 l /\ f d0 = true /\ d = mkDoc (_id d0) (g (body d0)).
Proof.
  induction l as [|x l IH]; simpl; [tauto|].
  destruct (f x) eqn:Hx; simpl.
  - intros [<-|H]; [right; exists x; auto|auto].
  - intros [<-|H]; [auto|].
    destruct (IH H) as [H'|(d0 & H0 & Hf & E)]; [auto|right; exists d0; auto].
Qed.

Lemma NoDup_map_filter {A B} (h : A -> B) (f : A -> bool) (l : list A) :
  NoDup (map h l) -> NoDup (map h (filter f l)).
Proof.
  induction l as [|x l IH]; simpl; intros H; [constructor|].
  inversion H as [|? ? Hx Hl]; subst.
  destruct (f x); simpl; [|auto]. constructor; [|auto].
  intros Hin. apply Hx. apply in_map_iff in Hin.
  destruct Hin as (y & E & Hy). apply filter_In in Hy.
  rewrite <- E. apply in_map. tauto.
Qed.

(** Every cart of the store after a cart operation is a cart of the store
    before, or holds the items that the operation wrote (none, for the cart
    that [cart_add] creates when the driver refuses its write). *)
Lemma run_op_items (o : cart_op) (db : Store) d :
  In d (db_cart (run_op o db)) ->
  In d (db_cart db) \/
  match o with
  | GetOrCreate c0 => CartDoc.get_items (body d) = Cart.items c0
  | AddItem req =>
      CartDoc.get_items (body d) = [] \/
      exists prior,
        (prior = [] \/ exists c, In c (db_cart db) /\ prior = CartDoc.get_items (body c)) /\
        CartDoc.get_items (body d) = add_to_items prior (req_item req)
  | RemoveItem req =>
      exists c, In c (db_cart db) /\
        CartDoc.get_items (body d)
        = filter (fun it => negb (CartItem.sku it =? CartItem.sku (req_item req))%string)
            (CartDoc.get_items (body c))
  end.
Proof.
  destruct (run_op_shape o db) as (_ & _ & Hcart).
  destruct (find _ _) as [c|] eqn:Hf; destruct o as [c0|req|req];
    cbv zeta in Hcart; rewrite Hcart; clear Hcart; intros Hd; auto.
  - destruct (fits db _); [|auto].
    apply in_update_first in Hd. destruct Hd as [Hd|(d0 & H0 & _ & ->)]; [auto|].
    right. right. exists (CartDoc.get_items (body c)). split; [|reflexivity].
    right. exists c. split; [|reflexivity]. now apply find_some in Hf.
  - apply in_update_first in Hd. destruct Hd as [Hd|(d0 & H0 & _ & ->)]; [auto|].
    right. exists c. split; [|reflexivity]. now apply find_some in Hf.
  - apply in_app_or in Hd. destruct Hd as [Hd|[<-|[]]]; auto.
  - apply in_app_or in Hd. destruct Hd as [Hd|[<-|[]]]; [auto|].
    right. destruct (fits db _); [|now left].
    right. exists []. auto.
Qed.

(** X4: [cart_add] and [cart_remove] keep the lines of every stored cart
    distinct by sku, and so does [create_or_get_cart] when the items of
    the request are distinct by sku. *)
Theorem cart_ops_keep_distinct_skus (o : cart_op) (db : Store) :
  match o with
  | GetOrCreate c => NoDup (map CartItem.sku (Cart.items c))
  | _ => True
  end ->
  skus_distinct db -> skus_distinct (run_op o db).
Proof.
  intros Ho H d Hd. apply run_op_items in Hd. destruct Hd as [Hd|Hd]; [auto|].
  destruct o as [c0|req|req].
  - now rewrite Hd.
  - destruct Hd as [->|(prior & Hprior & ->)]; [constructor|].
    apply add_to_items_distinct.
    destruct Hprior as [->|(c & Hc & ->)]; [constructor|auto].
  - destruct Hd as (c & Hc & ->). apply NoDup_map_filter. auto.
Qed.

Lemma cart_ops_keep_distinct_skus_witness :
  let db := mkStore [] []
              [mkDoc 1%N (CartDoc.mk "s1" (Some [CartItem.mk "p1" "A" 2;
                                                  CartItem.mk "p2" "B" 1]))] in
  skus_distinct
    (run_op (AddItem (mkUpdateCartRequest "s1" (CartItem.mk "p2" "B" 4))) db).
Proof.
  intros db. apply cart_ops_keep_distinct_skus; [exact I|].
  intros d [<-|[]]. simpl.
  repeat constructor; simpl; intuition discriminate.
Defined.

(** X5: when the body of a cart operation passes the validation of
    [schemas.py] (every quantity at least 1), the operation keeps every
    stored line at a quantity of at least 1; hence the stores reached from
    one without carts by valid operations hold no line below 1. *)
Theorem cart_ops_keep_quantities_valid :
  (forall o db,
     op_valid o = true -> quantities_valid db -> quantities_valid (run_op o db)) /\
  (forall ops db,
     forallb op_valid ops = true -> db_cart db = [] ->
     quantities_valid (run_ops ops db)).
Proof.
  assert (Hstep : forall o db,
            op_valid o = true -> quantities_valid db ->
            quantities_valid (run_op o db)).
  { intros o db Ho H d it Hd Hit. apply run_op_items in Hd.
    destruct Hd as [Hd|Hd]; [eauto|].
    destruct o as [c0|req|req]; simpl in Ho.
    - rewrite Hd in Hit. unfold Cart_valid in Ho.
      rewrite forallb_forall in Ho. auto.
    - destruct Hd as [E|(prior & Hprior & E)]; rewrite E in Hit;
        [contradiction|].
      assert (Hall : Forall (fun x => CartItem_valid x = true)
                       (add_to_items prior (req_item req))).
      { apply add_to_items_valid; [exact Ho|].
        destruct Hprior as [->|(c & Hc & ->)]; [constructor|].
        apply Forall_forall. intros x Hx. exact (H c x Hc Hx). }
      rewrite Forall_forall in Hall. auto.
    - destruct Hd as (c & Hc & E). rewrite E in Hit.
      apply filter_In in Hit. destruct Hit as [Hit _]. exact (H c it Hc Hit). }
  split; [exact Hstep|].
  intros ops db Hops Hempty.
  assert (H0 : quantities_valid db).
  { intros d it Hd. rewrite Hempty in Hd. contradiction. }
  clear Hempty. revert db H0. unfold run_ops.
  induction ops as [|o ops IH]; simpl in *; intros db H0; [exact H0|].
  apply andb_true_iff in Hops. destruct Hops as [Ho Hops].
  apply IH; [exact Hops|]. now apply Hstep.
Qed.

Lemma cart_ops_keep_quantities_valid_witness :
  let a := mkUpdateCartRequest "s1" (CartItem.mk "p1" "A" 2) in
  quantities_valid
    (run_ops [AddItem a; AddItem a; GetOrCreate (Cart.mk "s2" [CartItem.mk "p1" "B" 1])]
       empty_store) /\
  quantities_valid (run_op (AddItem a) empty_store).
Proof.
  intros a. split.
  - apply (proj2 cart_ops_keep_quantities_valid); reflexivity.
  - apply (proj1 cart_ops_keep_quantities_valid); [reflexivity|].
    intros d it [].
Defined.

(** After [cart_add] the session has a cart, which is the cart that the
    call returned when it returned. *)
Lemma cart_add_refetch (db : Store) (req : UpdateCartRequest) :
  NoDup (map _id (db_cart db)) ->
  exists c',
    find (by_session_id (req_session_id req)) (db_cart (exec (cart_add req) db))
    = Some c' /\
    forall r, outcome (cart_add req) db = inr r -> r = Some c'.
Proof.
  intros Hids. unfold outcome, exec.
  destruct (find (by_session_id (req_session_id req)) (db_cart db)) as [c|] eqn:Hf.
  - destruct (fits db (add_to_items (CartDoc.get_items (body c)) (req_item req)))
      eqn:Hfits.
    + destruct (find_some_split _ _ _ Hf) as (pre & post & Hdb & Hpre & Hc).
      rewrite (cart_add_existing db req pre c post Hdb Hpre Hc Hids Hfits).
      simpl. eexists. split; [now apply find_split|]. congruence.
    + rewrite (cart_add_existing_overflow db req c Hf Hfits). simpl.
      exists c. split; [exact Hf|]. discriminate.
  - assert (Hlast : forall b : CartDoc.t,
              CartDoc.session_id b = req_session_id req ->
              find (by_session_id (req_session_id req))
                (db_cart db ++ [mkDoc (fresh_id (db_cart db)) b])
              = Some (mkDoc (fresh_id (db_cart db)) b)).
    { intros b Hb. rewrite (find_snoc_none _ _ _ Hf). unfold by_session_id.
      simpl. rewrite Hb. now rewrite String.eqb_refl. }
    destruct (fits db [req_item req]) eqn:Hfits.
    + rewrite (cart_add_new db req Hf Hfits). simpl.
      eexists. split; [now apply Hlast|]. congruence.
    + rewrite (cart_add_new_overflow db req Hf Hfits). simpl.
      eexists. split; [now apply Hlast|]. discriminate.
Qed.

(** X6: after [cart_add], whether it returned or the driver refused its
    write, the session has a cart: [create_or_get_cart] for that session
    returns it, whatever items the request carries, and writes nothing; when
    [cart_add] returned, [create_or_get_cart] returns the same cart (cart
    documents carrying distinct identifiers). *)
Theorem cart_add_then_get (db : Store) (req : UpdateCartRequest)
  (items' : list CartItem.t) :
  NoDup (map _id (db_cart db)) ->
  let db1 := exec (cart_add req) db in
  let get := create_or_get_cart (Cart.mk (req_session_id req) items') in
  exec get db1 = db1 /\
  (exists c',
     outcome get db1 = inr (Some c') /\
     CartDoc.session_id (body c') = req_session_id req) /\
  (forall r, outcome (cart_add req) db = inr r -> outcome get db1 = inr r).
Proof.
  intros Hids db1 get. subst db1 get.
  destruct (cart_add_refetch db req Hids) as (c' & Hf & Hsame).
  unfold outcome, exec in *.
  rewrite (create_or_get_existing _ (Cart.mk (req_session_id req) items') c' Hf).
  simpl. split; [reflexivity|]. split.
  - exists c'. split; [reflexivity|]. apply find_some in Hf.
    destruct Hf as [_ Hf]. now apply String.eqb_eq in Hf.
  - intros r Hr. now rewrite (Hsame r Hr).
Qed.

Lemma cart_add_then_get_witness :
  let req := mkUpdateCartRequest "s1" (CartItem.mk "p1" "A" 2) in
  outcome (create_or_get_cart (Cart.mk "s1" [])) (exec (cart_add req) empty_store)
  = outcome (cart_add req) empty_store.
Proof.
  intros req.
  destruct (cart_add_then_get empty_store req []) as (_ & _ & H).
  - simpl. constructor.
  - exact (H _ eq_refl).
Defined.

Lemma written_quantity_twice prior p k q1 q2 :
  written_quantity (add_to_items prior (CartItem.mk p k q1)) (CartItem.mk p k q2)
  = written_quantity prior (CartItem.mk p k (q1 + q2)).
Proof.
  destruct (sku_cases prior k) as [(pre & it & post & -> & Hpre & Hit)|Hmiss].
  - rewrite (add_to_items_hit pre it post (CartItem.mk p k q1) Hpre Hit).
    rewrite (written_quantity_hit pre it post (CartItem.mk p k (q1 + q2)) Hpre Hit).
    rewrite (written_quantity_hit pre (CartItem.add_quantity it _) post
               (CartItem.mk p k q2) Hpre Hit).
    simpl. lia.
  - rewrite (add_to_items_miss prior (CartItem.mk p k q1) Hmiss).
    rewrite (written_quantity_miss prior (CartItem.mk p k (q1 + q2)) Hmiss).
    now rewrite (written_quantity_hit prior (CartItem.mk p k q1) []
                   (CartItem.mk p k q2) Hmiss eq_refl).
Qed.

(** X7: two calls of [cart_add] for the same session, product and sku come
    to one call with the sum of the quantities, the same store and the same
    returned cart, when the quantity written by the first call and the
    quantity written for the sum both fit 8 bytes (cart documents carrying
    distinct identifiers). *)
Theorem cart_add_twice_sums (db : Store) (s p k : string) (q1 q2 : Z) :
  NoDup (map _id (db_cart db)) ->
  let prior :=
    match find (by_session_id s) (db_cart db) with
    | Some c => CartDoc.get_items (body c)
    | None => []
    end in
  int64_ok (written_quantity prior (CartItem.mk p k q1)) = true ->
  int64_ok (written_quantity prior (CartItem.mk p k (q1 + q2))) = true ->
  let add q := cart_add (mkUpdateCartRequest s (CartItem.mk p k q)) in
  add q2 (exec (add q1) db) = add (q1 + q2)%Z db.
Proof.
  intros Hids prior H1 H12 add. subst add prior. unfold exec.
  set (r1 := mkUpdateCartRequest s (CartItem.mk p k q1)).
  set (r2 := mkUpdateCartRequest s (CartItem.mk p k q2)).
  set (r := mkUpdateCartRequest s (CartItem.mk p k (q1 + q2))).
  destruct (find (by_session_id s) (db_cart db)) as [c|] eqn:Hf.
  - destruct (find_some_split _ _ _ Hf) as (pre & post & Hdb & Hpre & Hc).
    assert (Hstored : forall it, In it (CartDoc.get_items (body c)) ->
                      In (CartItem.quantity it) (stored_ints cart db)).
    { intros it Hit. apply (stored_of_cart db c it); [|exact Hit].
      now apply find_some in Hf. }
    assert (F1 : fits db (add_to_items (CartDoc.get_items (body c)) (req_item r1)) = true).
    { apply fits_added; [exact Hstored|now left]. }
    assert (F12 : fits db (add_to_items (CartDoc.get_items (body c)) (req_item r)) = true).
    { apply fits_added; [exact Hstored|now left]. }
    rewrite (cart_add_existing db r1 pre c post Hdb Hpre Hc Hids F1).
    rewrite (cart_add_existing db r pre c post Hdb Hpre Hc Hids F12).
    cbn [snd].
    set (c1 := mkDoc (_id c) _).
    set (db1 := mkStore (db_category db) (db_product db) (pre ++ c1 :: post)).
    assert (Hids1 : NoDup (map _id (db_cart db1))).
    { simpl. rewrite Hdb in Hids. rewrite map_app in *. exact Hids. }
    assert (F2 : fits db1 (add_to_items (CartDoc.get_items (body c1)) (req_item r2)) = true).
    { apply fits_added.
      - intros it Hit. apply (stored_of_cart db1 c1 it); [|exact Hit].
        simpl. apply in_or_app. right. now left.
      - left. subst c1 r1 r2. cbn -[add_to_items written_quantity].
        now rewrite written_quantity_twice. }
    pose proof (cart_add_existing db1 r2 pre c1 post eq_refl Hpre Hc Hids1 F2) as H2.
    cbv zeta in H2. rewrite H2. subst db1 c1 r1 r2 r. cbn -[add_to_items].
    rewrite add_to_items_twice. reflexivity.
  - assert (F1 : fits db [req_item r1] = true).
    { apply fits_iff. intros it [<-|[]]. now left. }
    assert (F12 : fits db [req_item r] = true).
    { apply fits_iff. intros it [<-|[]]. now left. }
    rewrite (cart_add_new db r1 Hf F1), (cart_add_new db r Hf F12).
    cbn [snd].
    set (c1 := mkDoc (fresh_id (db_cart db)) _).
    set (db1 := mkStore (db_category db) (db_product db) (db_cart db ++ [c1])).
    assert (Hpre : Forall (fun x => by_session_id (req_session_id r2) x = false)
                     (db_cart db)).
    { now apply find_none_all. }
    assert (Hc1 : by_session_id (req_session_id r2) c1 = true).
    { unfold by_session_id. simpl. apply String.eqb_refl. }
    assert (Hids1 : NoDup (map _id (db_cart db1))).
    { simpl. now apply fresh_id_snoc_unique. }
    assert (F2 : fits db1 (add_to_items (CartDoc.get_items (body c1)) (req_item r2)) = true).
    { apply fits_added.
      - intros it Hit. apply (stored_of_cart db1 c1 it); [|exact Hit].
        simpl. apply in_or_app. right. now left.
      - left. subst c1 r1 r2. cbn -[add_to_items written_quantity].
        rewrite <- H12.
        change [CartItem.mk p k q1] with (add_to_items [] (CartItem.mk p k q1)).
        now rewrite written_quantity_twice. }
    pose proof (cart_add_existing db1 r2 (db_cart db) c1 [] eq_refl Hpre Hc1 Hids1 F2)
      as H2.
    cbv zeta in H2. rewrite H2. subst db1 c1. simpl.
    unfold add_to_items. simpl. now rewrite String.eqb_refl.
Qed.

Lemma cart_add_twice_sums_witness :
  let add q := cart_add (mkUpdateCartRequest "s1" (CartItem.mk "p1" "A" q)) in
  add 3%Z (exec (add 2%Z) empty_store) = add 5%Z empty_store.
Proof.
  intros add.
  apply (cart_add_twice_sums empty_store "s1" "p1" "A" 2 3).
  - simpl. constructor.
  - reflexivity.
  - reflexivity.
Defined.

Lemma filter_twice {A} (f : A -> bool) (l : list A) :
  filter f (filter f l) = filter f l.
Proof.
  induction l as [|x l IH]; simpl; [reflexivity|].
  destruct (f x) eqn:Hx; simpl; [rewrite Hx; now f_equal|exact IH].
Qed.

(** X8: [cart_remove] is idempotent: a second call for the same session and
    sku ends as the first did and leaves the store as the first left it
    (cart documents carrying distinct identifiers). *)
Theorem cart_remove_twice (db : Store) (req : UpdateCartRequest) :
  NoDup (map _id (db_cart db)) ->
  let db1 := exec (cart_remove req) db in
  cart_remove req db1 = (outcome (cart_remove req) db, db1).
Proof.
  intros Hids db1. subst db1. unfold outcome, exec.
  destruct (find (by_session_id (req_session_id req)) (db_cart db)) as [c|] eqn:Hf.
  - destruct (find_some_split _ _ _ Hf) as (pre & post & Hdb & Hpre & Hc).
    rewrite (cart_remove_existing db req pre c post Hdb Hpre Hc Hids).
    cbn [fst snd].
    set (c1 := mkDoc (_id c) _).
    assert (Hids1 : NoDup (map _id (pre ++ c1 :: post))).
    { rewrite Hdb in Hids. rewrite map_app in *. exact Hids. }
    pose proof (cart_remove_existing
                  (mkStore (db_category db) (db_product db) (pre ++ c1 :: post))
                  req pre c1 post eq_refl Hpre Hc Hids1) as H2.
    cbv zeta in H2. rewrite H2. subst c1.
    cbn [db_category db_product _id body CartDoc.get_items CartDoc.set_items
         CartDoc.items CartDoc.session_id].
    now rewrite filter_twice.
  - rewrite (cart_remove_missing db req Hf). simpl.
    exact (cart_remove_missing db req Hf).
Qed.

Lemma cart_remove_twice_witness :
  let db := mkStore [] []
              [mkDoc 1%N (CartDoc.mk "s1" (Some [CartItem.mk "p1" "A" 2;
                                                  CartItem.mk "p2" "B" 1]))] in
  let req := mkUpdateCartRequest "s1" (CartItem.mk "p1" "A" 1) in
  cart_remove req (exec (cart_remove req) db)
  = (outcome (cart_remove req) db, exec (cart_remove req) db).
Proof.
  intros db req. apply (cart_remove_twice db req).
  simpl. repeat constructor. simpl. tauto.
Defined.

(** Removing a sku that the cart does not hold leaves the store as it is. *)
Lemma cart_remove_absent (db : Store) (req : UpdateCartRequest) c l :
  NoDup (map _id (db_cart db)) ->
  find (by_session_id (req_session_id req)) (db_cart db) = Some c ->
  CartDoc.items (body c) = Some l ->
  (forall it, In it l -> CartItem.sku it <> CartItem.sku (req_item req)) ->
  snd (cart_remove req db) = db.
Proof.
  intros Hids Hf Hl Hnot.
  destruct (find_some_split _ _ _ Hf) as (pre & post & Hdb & Hpre & Hc).
  rewrite (cart_remove_existing db req pre c post Hdb Hpre Hc Hids). cbn [snd].
  unfold CartDoc.get_items, CartDoc.set_items. rewrite Hl.
  rewrite filter_all.
  - destruct c as [i [cs ci]]. simpl in *. subst ci.
    destruct db; simpl in *. now subst.
  - intros it Hit. apply negb_true_iff, String.eqb_neq. auto.
Qed.

(** X9: [cart_remove] undoes a [cart_add] of a new sku: when the session's
    cart has its items and none of them carries the sku, adding a line of
    that sku and then removing the sku gives back the store as it was.  For
    a session without a cart the two calls leave a cart with no items: a
    cart that becomes empty is kept, not deleted. *)
Theorem cart_add_then_remove (db : Store) (req req' : UpdateCartRequest) :
  NoDup (map _id (db_cart db)) ->
  req_session_id req' = req_session_id req ->
  CartItem.sku (req_item req') = CartItem.sku (req_item req) ->
  let db2 := exec (cart_remove req') (exec (cart_add req) db) in
  (forall c l,
     find (by_session_id (req_session_id req)) (db_cart db) = Some c ->
     CartDoc.items (body c) = Some l ->
     (forall it, In it l -> CartItem.sku it <> CartItem.sku (req_item req)) ->
     db2 = db) /\
  (find (by_session_id (req_session_id req)) (db_cart db) = None ->
   db_cart db2
   = db_cart db ++ [mkDoc (fresh_id (db_cart db))
                      (CartDoc.mk (req_session_id req) (Some []))]).
Proof.
  intros Hids Hs Hk db2. subst db2. unfold exec.
  assert (Hdrop : forall l,
            (forall it, In it l -> CartItem.sku it <> CartItem.sku (req_item req)) ->
            filter (fun it => negb (CartItem.sku it =? CartItem.sku (req_item req'))%string)
              (l ++ [req_item req]) = l).
  { intros l Hl. rewrite filter_app, Hk. simpl. rewrite String.eqb_refl. simpl.
    rewrite app_nil_r. apply filter_all. intros it Hit.
    apply negb_true_iff, String.eqb_neq. auto. }
  split.
  - intros c l Hf Hl Hnot.
    destruct (fits db (add_to_items (CartDoc.get_items (body c)) (req_item req)))
      eqn:Hfits.
    + destruct (find_some_split _ _ _ Hf) as (pre & post & Hdb & Hpre & Hc).
      rewrite (cart_add_existing db req pre c post Hdb Hpre Hc Hids Hfits).
      cbn [snd].
      set (c1 := mkDoc (_id c) _).
      assert (Hids1 : NoDup (map _id (pre ++ c1 :: post))).
      { rewrite Hdb in Hids. rewrite map_app in *. exact Hids. }
      rewrite <- Hs in Hpre, Hc.
      pose proof (cart_remove_existing
                    (mkStore (db_category db) (db_product db) (pre ++ c1 :: post))
                    req' pre c1 post eq_refl Hpre Hc Hids1) as H2.
      cbv zeta in H2. rewrite H2. subst c1.
      cbn [snd db_category db_product _id body CartDoc.get_items CartDoc.set_items
           CartDoc.items CartDoc.session_id].
      unfold CartDoc.get_items. rewrite Hl.
      rewrite add_to_items_miss by (apply Forall_forall; exact Hnot).
      rewrite (Hdrop l Hnot).
      destruct c as [i [cs ci]]. simpl in *. subst ci.
      destruct db; simpl in *. now subst.
    + rewrite (cart_add_existing_overflow db req c Hf Hfits). cbn [snd].
      apply (cart_remove_absent db req' c l Hids); [now rewrite Hs|exact Hl|].
      rewrite Hk. exact Hnot.
  - intros Hf.
    assert (Hpre : Forall (fun x => by_session_id (req_session_id req') x = false)
                     (db_cart db)).
    { rewrite Hs. now apply find_none_all. }
    destruct (fits db [req_item req]) eqn:Hfits.
    + rewrite (cart_add_new db req Hf Hfits). cbn [snd].
      set (c1 := mkDoc (fresh_id (db_cart db)) _).
      assert (Hc1 : by_session_id (req_session_id req') c1 = true).
      { unfold by_session_id. simpl. rewrite Hs. apply String.eqb_refl. }
      assert (Hids1 : NoDup (map _id (db_cart db ++ [c1]))).
      { now apply fresh_id_snoc_unique. }
      pose proof (cart_remove_existing
                    (mkStore (db_category db) (db_product db) (db_cart db ++ [c1]))
                    req' (db_cart db) c1 [] eq_refl Hpre Hc1 Hids1) as H2.
      cbv zeta in H2. rewrite H2. subst c1.
      cbn [snd db_cart _id body CartDoc.get_items CartDoc.set_items
           CartDoc.items CartDoc.session_id].
      cbn [filter]. rewrite Hk, String.eqb_refl. reflexivity.
    + rewrite (cart_add_new_overflow db req Hf Hfits). cbn [snd].
      set (c0 := mkDoc (fresh_id (db_cart db)) _).
      assert (Hc0 : by_session_id (req_session_id req') c0 = true).
      { unfold by_session_id. simpl. rewrite Hs. apply String.eqb_refl. }
      assert (Hids0 : NoDup (map _id (db_cart db ++ [c0]))).
      { now apply fresh_id_snoc_unique. }
      pose proof (cart_remove_existing
                    (mkStore (db_category db) (db_product db) (db_cart db ++ [c0]))
                    req' (db_cart db) c0 [] eq_refl Hpre Hc0 Hids0) as H2.
      cbv zeta in H2. rewrite H2. reflexivity.
Qed.

Lemma cart_add_then_remove_witness :
  let db := mkStore [] []
              [mkDoc 1%N (CartDoc.mk "s1" (Some [CartItem.mk "p1" "A" 2]))] in
  let add := mkUpdateCartRequest "s1" (CartItem.mk "p2" "B" 4) in
  let remove := mkUpdateCartRequest "s1" (CartItem.mk "" "B" 1) in
  exec (cart_remove remove) (exec (cart_add add) db) = db.
Proof.
  intros db add remove.
  refine (proj1 (cart_add_then_remove db add remove _ eq_refl eq_refl)
            (mkDoc 1%N (CartDoc.mk "s1" (Some [CartItem.mk "p1" "A" 2])))
            [CartItem.mk "p1" "A" 2] eq_refl eq_refl _).
  - simpl. repeat constructor. simpl. tauto.
  - simpl. intros it [<-|[]]. simpl. discriminate.
Defined.

(** X15: in a store whose quantities fit 8 bytes, when the quantity that
    [cart_add] would write (that of the first line of equal sku plus the
    added one, or the added one for a new line) does not fit, the driver
    refuses the write: the call ends in an uncaught [OverflowError], so a
    status 500.  For a session with a cart the store is left as it was; for
    a session without one, the cart created before the write is left behind
    with no items.  The category and product collections are not touched. *)
Theorem cart_add_refused (db : Store) (req : UpdateCartRequest) :
  quantities_fit db ->
  let s := req_session_id req in
  let item := req_item req in
  let prior :=
    match find (by_session_id s) (db_cart db) with
    | Some c => CartDoc.get_items (body c)
    | None => []
    end in
  int64_ok (written_quantity prior item) = false ->
  outcome (cart_add req) db = inl (Uncaught "OverflowError") /\
  status_of (Uncaught "OverflowError") = 500%nat /\
  db_category (exec (cart_add req) db) = db_category db /\
  db_product (exec (cart_add req) db) = db_product db /\
  match find (by_session_id s) (db_cart db) with
  | Some _ => exec (cart_add req) db = db
  | None =>
      db_cart (exec (cart_add req) db)
      = db_cart db ++ [mkDoc (fresh_id (db_cart db)) (CartDoc.mk s (Some []))]
  end.
Proof.
  intros Hdb s item prior. subst prior. unfold outcome, exec.
  destruct (find (by_session_id s) (db_cart db)) as [c|] eqn:Hf; intros Hq.
  - assert (Hfits : fits db (add_to_items (CartDoc.get_items (body c)) item) = false).
    { apply not_true_is_false. intros H. apply fits_added in H.
      - destruct H as [H|H]; [congruence|]. apply Hdb in H. congruence.
      - intros it Hit. apply (stored_of_cart db c it); [|exact Hit].
        now apply find_some in Hf. }
    rewrite (cart_add_existing_overflow db req c Hf Hfits). simpl. auto.
  - assert (Hfits : fits db [item] = false).
    { rewrite (fits_plain db [item] Hdb). simpl.
      unfold written_quantity in Hq. simpl in Hq. now rewrite Hq. }
    rewrite (cart_add_new_overflow db req Hf Hfits). simpl. auto.
Qed.

Lemma cart_add_refused_witness :
  let line := CartItem.mk "p1" "A" 9223372036854775807 in
  let db := mkStore [] [] [mkDoc 7%N (CartDoc.mk "s1" (Some [line]))] in
  let req := mkUpdateCartRequest "s1" (CartItem.mk "p1" "A" 1) in
  outcome (cart_add req) db = inl (Uncaught "OverflowError") /\
  exec (cart_add req) db = db.
Proof.
  intros line db req.
  destruct (cart_add_refused db req) as (Hout & _ & _ & _ & Hsame).
  - intros z [<-|[]]. reflexivity.
  - reflexivity.
  - split; [exact Hout|exact Hsame].
Defined.

(** ** More on the seed loader *)

(** X10: [seed] does one of two things, whatever the request and the store:
    it changes nothing, or it leaves in both collections the reference
    data and nothing else.  It never resets one collection only, never
    touches the carts and never raises. *)
Theorem seed_all_or_nothing (req : SeedRequest) (db : Store) :
  (exists r, outcome (seed req) db = inr r) /\
  db_cart (exec (seed req) db) = db_cart db /\
  (exec (seed req) db = db \/
   (map body (db_category (exec (seed req) db)) = categories /\
    map body (db_product (exec (seed req) db)) = sample_products)).
Proof.
  unfold outcome, exec.
  destruct (outcome (seed_guard req) db) as [e|[|]] eqn:Hg.
  - destruct req as [[|]]; destruct db as [[|c cs] [|p ps] carts]; discriminate.
  - assert (Hreq : req = mkSeedRequest false /\ db_category db <> [] /\ db_product db <> []).
    { destruct req as [[|]]; destruct db as [[|c cs] [|p ps] carts];
        try discriminate. repeat split; discriminate. }
    destruct Hreq as (-> & Hc & Hp). rewrite (seed_skips db Hc Hp). simpl. eauto.
  - rewrite (seed_reloads req db Hg). simpl. split; [eauto|]. split; [reflexivity|].
    right. split; reflexivity.
Qed.

(** X11: with [force] false, [seed] still resets the store when either of
    the two collections is empty: it then does what [force] true does, and
    the documents of the other collection are discarded. *)
Theorem seed_unforced_resets_partial (db : Store) :
  db_category db = [] \/ db_product db = [] ->
  seed (mkSeedRequest false) db = seed (mkSeedRequest true) db.
Proof.
  intros H.
  rewrite (seed_reloads (mkSeedRequest true) db eq_refl).
  apply seed_reloads.
  destruct db as [[|c cs] [|p ps] carts]; simpl in *; try reflexivity.
  destruct H; discriminate.
Qed.

Lemma seed_unforced_resets_partial_witness :
  let manual := map (mkDoc 77%N) (firstn 1 sample_products) in
  db_product (exec (seed (mkSeedRequest false)) (mkStore [] manual []))
  = db_product (exec (seed (mkSeedRequest true)) empty_store).
Proof.
  intros manual. unfold exec.
  rewrite (seed_unforced_resets_partial (mkStore [] manual [])).
  - reflexivity.
  - left. reflexivity.
Defined.

(** ** More on the catalog handlers *)

(** X12: for every query, pattern or not, [list_products] returns stored
    products only, in store order, each of which meets every equality
    constraint that is given; it leaves the store as it is; and its only
    failure is the store's rejection of a given [q] as a pattern, which the
    handler does not catch. *)
Theorem list_products_any_query
  (regex_compile : string -> string -> option (string -> bool))
  (db : Store) (gender ptype category_ : option string)
  (featured : option bool) (q : option string) :
  let run := list_products regex_compile gender ptype category_ featured q in
  exec run db = db /\
  (forall docs,
     outcome run db = inr docs ->
     exists keep,
       docs = filter keep (db_product db) /\
       forall d, keep d = true ->
         satisfies (given gender) (given ptype) (given category_) featured None d
         = true) /\
  (forall e,
     outcome run db = inl e ->
     e = Uncaught "OperationFailure" /\ status_of e = 500%nat /\
     truthy q = true /\ regex_compile (str_of q) "i" = None).
Proof.
  intros run. subst run. unfold outcome, exec. rewrite list_products_run.
  destruct (truthy q) eqn:Tq.
  - destruct (regex_compile (str_of q) "i") as [m|]; simpl.
    + split; [reflexivity|]. split; [|discriminate].
      intros docs H. injection H as <-. eexists. split; [reflexivity|].
      intros d Hd. now apply andb_true_iff in Hd.
    + split; [reflexivity|]. split; [discriminate|].
      intros e H. injection H as <-. auto.
  - simpl. split; [reflexivity|]. split; [|discriminate].
    intros docs H. injection H as <-. eexists. split; [reflexivity|].
    intros d Hd. now apply andb_true_iff in Hd.
Qed.

Lemma list_products_any_query_witness :
  let db := exec (seed (mkSeedRequest true)) empty_store in
  exists keep,
    outcome (list_products regex_dot (Some "men") None None None (Some "o.f")) db
    = inr (filter keep (db_product db)) /\
    forall d, keep d = true -> Product.gender (body d) = "men".
Proof.
  intros db.
  destruct (list_products_any_query regex_dot db (Some "men") None None None
              (Some "o.f")) as (_ & H & _).
  destruct (H _ eq_refl) as (keep & E & Hkeep).
  exists keep. split.
  - rewrite <- E. reflexivity.
  - intros d Hd. specialize (Hkeep d Hd). unfold satisfies in Hkeep. simpl in Hkeep.
    rewrite !andb_true_r in Hkeep. now apply String.eqb_eq in Hkeep.
Defined.

(** X13: [search_products] on a query that is not empty is [list_products]
    filtered by that [q] alone and cut to its first 10 results, with the
    same failures; on the empty query the two differ: the search returns
    nothing and the listing returns every product. *)
Theorem search_is_capped_listing
  (regex_compile : string -> string -> option (string -> bool))
  (db : Store) (q : string) :
  (q <> "" ->
   outcome (search_products regex_compile q) db
   = match outcome (list_products regex_compile None None None None (Some q)) db with
     | inr docs => inr (firstn 10 docs)
     | inl e => inl e
     end) /\
  outcome (search_products regex_compile "") db = inr [] /\
  outcome (list_products regex_compile None None None None (Some "")) db
  = inr (db_product db).
Proof.
  split; [|split].
  - intros Hq. unfold outcome.
    rewrite (search_products_run regex_compile db q Hq), list_products_run.
    assert (Tq : truthy (Some q) = true).
    { simpl. apply negb_true_iff, String.eqb_neq. exact Hq. }
    rewrite Tq. cbn [str_of].
    destruct (regex_compile q "i") as [m|]; cbn [fst]; [|reflexivity].
    reflexivity.
  - reflexivity.
  - unfold outcome. rewrite list_products_run. cbn [truthy String.eqb negb fst].
    f_equal. apply filter_all. intros d _. reflexivity.
Qed.

Lemma search_is_capped_listing_witness :
  let db := exec (seed (mkSeedRequest true)) empty_store in
  outcome (search_products regex_dot "s.") db
  = match outcome (list_products regex_dot None None None None (Some "s.")) db with
    | inr docs => inr (firstn 10 docs)
    | inl e => inl e
    end.
Proof.
  intros db.
  apply (proj1 (search_is_capped_listing regex_dot db "s.")). discriminate.
Defined.

(** ** The probe *)

Lemma take_chars_length (n : nat) (s : string) :
  (utf8_length (take_chars n s) <= n)%nat.
Proof.
  revert n. induction s as [|c s IH]; intros n; simpl; [lia|].
  destruct (utf8_continuation c) eqn:Hc; simpl.
  - rewrite Hc. apply IH.
  - destruct n as [|n]; simpl; [lia|]. rewrite Hc. specialize (IH n). lia.
Qed.

Lemma take_chars_all (n : nat) (s : string) :
  (utf8_length s <= n)%nat -> take_chars n s = s.
Proof.
  revert n. induction s as [|c s IH]; intros n; simpl; [reflexivity|].
  destruct (utf8_continuation c) eqn:Hc; intros H.
  - now rewrite IH.
  - destruct n as [|n]; [lia|]. rewrite IH; [reflexivity|lia].
Qed.

(** X14: [test_database] always reports the backend as running; it reports
    the database "Not Available" exactly when the handle is missing, and
    "Connected" exactly when the collection names were listed, which are
    then the collections of the response.  When listing raises, the
    response keeps the url as set and the name of the database, written
    before the exception, next to the warning, and lists no collection; the
    warning carries the first 80 characters of the error text, which is the
    whole text when it has at most 80 characters. *)
Theorem test_database_report (db : db_handle) :
  let resp := test_database db in
  backend resp = "✅ Running" /\
  (database resp = "❌ Not Available" <-> db = db_None) /\
  (database resp = "✅ Connected"
   <-> exists name names, db = db_Database name (inr names)) /\
  (forall name names,
     db = db_Database name (inr names) ->
     collections resp = names /\ database_name resp = name) /\
  (forall name e,
     db = db_Database name (inl e) ->
     database resp = ("⚠️ " ++ take_chars 80 e)%string /\
     (utf8_length (take_chars 80 e) <= 80)%nat /\
     ((utf8_length e <= 80)%nat -> database resp = ("⚠️ " ++ e)%string) /\
     database_url resp = "✅ Set" /\ database_name resp = name /\
     collections resp = []) /\
  (collections resp <> [] -> database resp = "✅ Connected").
Proof.
  destruct db as [|name [e|names]]; simpl; repeat split; intros;
    repeat match goal with
           | H : exists _, _ |- _ => destruct H
           end;
    try discriminate; try congruence; eauto;
    try apply take_chars_length.
  match goal with
  | H : db_Database _ _ = db_Database _ _ |- _ => injection H as _ <-
  end.
  now rewrite take_chars_all.
Qed.

Lemma test_database_report_witness :
  let e := "éééééééééééééééééééééééééééééééééééééééééééééééééé" in
  let resp := test_database (db_Database "store" (inl e)) in
  utf8_length e = 50%nat /\ String.length e = 100%nat /\
  database resp = ("⚠️ " ++ e)%string /\ database_url resp = "✅ Set" /\
  database_name resp = "store" /\ collections resp = [].
Proof.
  intros e resp.
  destruct (test_database_report (db_Database "store" (inl e)))
    as (_ & _ & _ & _ & H & _).
  destruct (H "store" e eq_refl) as (_ & _ & Hall & Hurl & Hname & Hcoll).
  split; [reflexivity|]. split; [reflexivity|].
  split; [apply Hall; vm_compute; lia|].
  split; [exact Hurl|]. split; [exact Hname|exact Hcoll].
Defined.
